(** * radiomics.imageoperations: a shallow embedding and its properties

    The functions of [radiomics/imageoperations.py] that compute geometry
    ([generateAngles], [cropToTumorMask], [resampleImage]) and the
    stationary wavelet decomposition ([swt3] with [_decompose_i],
    [_decompose_j], [_decompose_k]) are transcribed as Rocq functions.

    Conventions.
    - A numpy vector is a [list]; element-wise arithmetic is [fmap] and
      [zip_with]; a Python tuple is a Rocq tuple.
    - numpy float64 values are idealised as exact rationals ([Q]): the
      claims are about the formulas, not about rounding error.
    - SimpleITK and PyWavelets are external libraries: their operations
      are the fields of an interface record, and the theorems hold for
      every implementation of it.  One small implementation is given so
      that the code can be run on concrete volumes.
    - [logger] calls have no influence on results and are left out.

    The grey-level histogram ([getHistogram], [binImage]) and [applyLoG]
    follow in a second part.  [applySquare], [applySquareRoot],
    [applyLogarithm] and [applyExponential] depend on square roots,
    logarithms and exponentials of the voxel values and are not
    transcribed. *)

From Stdlib Require Import ZArith QArith Qround Lia Lqa.
From stdpp Require Import gmap strings list fin_maps.

Local Open Scope Z_scope.

(** ** Python helpers *)

(** [xrange(lo, hi)]: the integers [lo <= i < hi] in increasing order. *)
Definition xrange (lo hi : Z) : list Z := seqZ lo (hi - lo).

(** ** generateAngles *)

Module Angles.

(** An angle is a row of the [(N, 3)] integer array. *)
Definition angle : Type := Z * Z * Z.

(** The three nested loops of [generateAngles] (source lines 48-55). *)
Definition enumerate (maxDistance : Z) : list angle :=
  z ← xrange 1 (maxDistance + 1);
  (0, 0, z) ::
    (y ← xrange (- maxDistance) (maxDistance + 1);
     (0, z, y) ::
       (x ← xrange (- maxDistance) (maxDistance + 1);
        [(z, y, x)])).

(** [numpy.min(size - numpy.abs(angles), 1)] for one row. *)
Definition min_margin (size a : angle) : Z :=
  let '(s0, s1, s2) := size in
  let '(a0, a1, a2) := a in
  Z.min (s0 - Z.abs a0) (Z.min (s1 - Z.abs a1) (s2 - Z.abs a2)).

(** The rows selected by [numpy.where(... <= 0)] are the impossible ones. *)
Definition impossible (size a : angle) : bool := min_margin size a <=? 0.

(** [numpy.delete(angles, numpy.where(...), 0)] keeps, in order, the rows
    that are not selected. *)
Definition generateAngles (size : angle) (maxDistance : Z) : list angle :=
  let angles := enumerate maxDistance in
  filter (λ a, impossible size a = false) angles.

End Angles.

(** ** Exceptions *)

Inductive exn : Type :=
  | ValueError (msg : string)
  | TypeError (msg : string)
  | RuntimeError (msg : string).

(** A Python call either returns a value or raises. *)
Inductive result (A : Type) : Type :=
  | Return (a : A)
  | Raise (e : exn).
Arguments Return {A} a.
Arguments Raise {A} e.

Global Instance result_ret : MRet result := λ A a, Return a.
Global Instance result_bind : MBind result := λ A B f r,
  match r with
  | Return a => f a
  | Raise e => Raise e
  end.

(** ** numpy *)

Module Numpy.

Local Open Scope Q_scope.

(** Comparison [a < b] on floats. *)
Definition Qlt_bool (a b : Q) : bool := negb (Qle_bool b a).

(** Element-wise arithmetic; a scalar operand is broadcast.  (numpy
    raises on operands of different lengths; every vector below has one
    component per image axis.) *)
Definition add (u v : list Q) : list Q := zip_with Qplus u v.
Definition sub (u v : list Q) : list Q := zip_with Qminus u v.
Definition mul (u v : list Q) : list Q := zip_with Qmult u v.
Definition div (u v : list Q) : list Q := zip_with Qdiv u v.
Definition add_s (u : list Q) (c : Q) : list Q := (λ x, x + c) <$> u.
Definition sub_s (u : list Q) (c : Q) : list Q := (λ x, x - c) <$> u.
Definition s_mul (c : Q) (u : list Q) : list Q := (λ x, c * x) <$> u.

(** [numpy.array(ints)] used in float arithmetic. *)
Definition to_float (u : list Z) : list Q := inject_Z <$> u.

(** [numpy.floor], [numpy.ceil]: integer-valued floats. *)
Definition floor (u : list Q) : list Q := (λ x, inject_Z (Qfloor x)) <$> u.
Definition ceil (u : list Q) : list Q := (λ x, inject_Z (Qceiling x)) <$> u.

(** [numpy.array(u, dtype='int')]: truncation toward zero. *)
Definition trunc (x : Q) : Z :=
  if Qlt_bool x 0 then Qceiling x else Qfloor x.
Definition astype_int (u : list Q) : list Z := trunc <$> u.

(** [numpy.where(cond, a, b)], and the form with a scalar for [a]. *)
Definition where_ {A} (cond : list bool) (a b : list A) : list A :=
  zip_with (λ (c : bool) (ab : A * A), if c then ab.1 else ab.2)
           cond (zip a b).
Definition where_scalar {A} (cond : list bool) (a : A) (b : list A) : list A :=
  zip_with (λ (c : bool) (y : A), if c then a else y) cond b.

(** [numpy.array_equal(u, v)]: same shape and equal elements. *)
Fixpoint array_equal (u v : list Q) : bool :=
  match u, v with
  | [], [] => true
  | x :: u', y :: v' => Qeq_bool x y && array_equal u' v'
  | _, _ => false
  end.

(** The slices [b[0::2]] and [b[1::2]]. *)
Fixpoint evens {A} (l : list A) : list A :=
  match l with
  | x :: _ :: l' => x :: evens l'
  | [x] => [x]
  | [] => []
  end.
Definition odds {A} (l : list A) : list A := evens (drop 1 l).

End Numpy.

(** An n-dimensional array in C order: [data] holds the elements row by
    row, [shape] the extent of every axis.  [dtype] is the element type,
    named by the SimpleITK pixel ID it converts to. *)
Record ndarray : Type := mk_ndarray {
  dtype : Z;
  shape : list nat;
  data : list Q
}.

Definition ndim (a : ndarray) : nat := length (shape a).
Definition size_of (sh : list nat) : nat := foldr Nat.mul 1%nat sh.

(** ** SimpleITK *)

(** An image: a voxel array (indexed z, y, x as numpy sees it) with its
    pixel type and spatial metadata. *)
Record Image : Type := mk_Image {
  PixelID : Z;
  Spacing : list Q;
  Origin : list Q;
  Direction : list Q;
  voxels : ndarray
}.

(** [image.GetSize()] lists the axes as x, y, z. *)
Definition GetSize (im : Image) : list Z :=
  Z.of_nat <$> reverse (shape (voxels im)).

(** A Python value passed as [interpolator]. *)
Inductive PyObject : Type :=
  | PyInt (n : Z)
  | PyStr (s : string)
  | PyOther.

(** The settings of a [sitk.ResampleImageFilter]. *)
Record ResampleImageFilter : Type := mk_rif {
  OutputSpacing : list Q;
  OutputDirection : list Q;
  Size : list Z;
  OutputOrigin : list Q;
  OutputPixelType : Z;
  Interpolator : Z
}.

(** The operations of SimpleITK that the module calls.  A filter object
    that is configured and then executed is one function of its settings
    and its input. *)
Class SimpleITK : Type := {
  sitkInt32 : Z;
  sitkNearestNeighbor : Z;
  sitkBSpline : Z;
  (** [sitk.Cast(image, pixelID)] *)
  Cast : Image → Z → Image;
  (** [LabelStatisticsImageFilter]: [Execute(image, mask)] then
      [GetBoundingBox(label)], as (L_x, U_x, L_y, U_y, L_z, U_z) *)
  LabelStatistics_GetBoundingBox : Image → Image → Z → list Z;
  (** [LabelShapeStatisticsImageFilter]: [Execute(mask)] then
      [GetBoundingBox(label)], as (L_x, L_y, L_z, S_x, S_y, S_z) *)
  LabelShapeStatistics_GetBoundingBox : Image → Z → list Z;
  (** [CropImageFilter] with lower and upper boundary crop sizes *)
  CropImageFilter_Execute : list Z → list Z → Image → Image;
  ResampleImageFilter_Execute : ResampleImageFilter → Image → Image;
  TransformContinuousIndexToPhysicalPoint : Image → list Q → list Q;
  (** [eval("sitk.%s" % name)]; [None] when the evaluation raises *)
  eval_sitk : string → option PyObject
}.

(** ** cropToTumorMask and resampleImage *)

Section ImageOperations.

Context `{sitk : SimpleITK}.

Import Numpy.

(** Source lines 99-100: the lower and upper boundary crop sizes. *)
Definition cropMargins (size boundingBox : list Z) : list Z * list Z :=
  let ijkMinBounds := evens boundingBox in
  let ijkMaxBounds :=
    zip_with (λ s u, s - u - 1) size (odds boundingBox) in
  (ijkMinBounds, ijkMaxBounds).

Definition cropToTumorMask (imageNode maskNode : Image) (label : Z)
    (boundingBox : option (list Z)) : Image * Image * list Z :=
  let oldMaskID := PixelID maskNode in
  let maskNode := Cast maskNode sitkInt32 in
  let size := GetSize maskNode in
  let boundingBox :=
    match boundingBox with
    | None => LabelStatistics_GetBoundingBox imageNode maskNode label
    | Some bb => bb
    end in
  let '(ijkMinBounds, ijkMaxBounds) := cropMargins size boundingBox in
  let croppedImageNode :=
    CropImageFilter_Execute ijkMinBounds ijkMaxBounds imageNode in
  let croppedMaskNode :=
    CropImageFilter_Execute ijkMinBounds ijkMaxBounds maskNode in
  let croppedMaskNode := Cast croppedMaskNode oldMaskID in
  (croppedImageNode, croppedMaskNode, boundingBox).

(** What [resampleImage] returns: [None], the 3-tuple of
    [cropToTumorMask], or the pair of resampled image and mask. *)
Inductive ResampleReturn : Type :=
  | RetNone
  | RetTuple3 (t : Image * Image * list Z)
  | RetTuple2 (t : Image * Image).

(** Source line 145: no resampling along axes where the label spans one
    slice. *)
Definition effectiveSpacing (oldSize : list Z)
    (resampledPixelSpacing oldSpacing : list Q) : list Q :=
  where_ ((λ s, negb (s =? 1)) <$> oldSize) resampledPixelSpacing oldSpacing.

(** Source lines 184-189: a string is evaluated in the [sitk] namespace;
    when that raises, [sitkBSpline] is used. *)
Definition resolveInterpolator (interpolator : PyObject) : PyObject :=
  match interpolator with
  | PyStr name =>
      match eval_sitk name with
      | Some v => v
      | None => PyInt sitkBSpline
      end
  | other => other
  end.

(** [rif.SetInterpolator] takes an enumerator, that is an integer. *)
Definition SetInterpolator (rif : ResampleImageFilter) (interpolator : PyObject)
    : result ResampleImageFilter :=
  match interpolator with
  | PyInt n =>
      Return (mk_rif (OutputSpacing rif) (OutputDirection rif) (Size rif)
                     (OutputOrigin rif) (OutputPixelType rif) n)
  | _ => Raise (TypeError "SetInterpolator: argument of type InterpolatorEnum expected")
  end.

Definition SetOutputPixelType (rif : ResampleImageFilter) (t : Z)
    : ResampleImageFilter :=
  mk_rif (OutputSpacing rif) (OutputDirection rif) (Size rif)
         (OutputOrigin rif) t (Interpolator rif).

(** Source lines 138-161: the bounds of the resampled grid, in the new
    index space, and its size. *)
Definition resampledBounds (imageSize bb : list Z) (spacingRatio : list Q)
    (padDistance : Z) : list Q * list Q :=
  let bbNewLBound :=
    floor (sub_s (mul (sub_s (to_float (take 3 bb)) (1 # 2)) spacingRatio)
                 (inject_Z padDistance)) in
  let bbNewUBound :=
    ceil (add_s (mul (sub_s (to_float (zip_with Z.add (take 3 bb) (drop 3 bb)))
                            (1 # 2)) spacingRatio)
                (inject_Z padDistance)) in
  let maxUbound := sub_s (ceil (mul (to_float imageSize) spacingRatio)) 1 in
  let bbNewLBound :=
    where_scalar ((λ x, Qlt_bool x 0) <$> bbNewLBound) 0%Q bbNewLBound in
  let bbNewUBound :=
    where_ (zip_with Qlt_bool maxUbound bbNewUBound) maxUbound bbNewUBound in
  (bbNewLBound, bbNewUBound).

Definition resampleImage (imageNode maskNode : option Image)
    (resampledPixelSpacing : list Q) (interpolator : PyObject)
    (label : Z) (padDistance : Z) : result ResampleReturn :=
  match imageNode, maskNode with
  | Some imageNode, Some maskNode =>
    let oldSpacing := Spacing imageNode in
    if array_equal oldSpacing resampledPixelSpacing then
      Return (RetTuple3 (cropToTumorMask imageNode maskNode 1 None))
    else
      let bb := LabelShapeStatistics_GetBoundingBox maskNode label in
      let oldSize := drop 3 bb in
      let resampledPixelSpacing :=
        effectiveSpacing oldSize resampledPixelSpacing oldSpacing in
      let spacingRatio := div oldSpacing resampledPixelSpacing in
      let '(bbNewLBound, bbNewUBound) :=
        resampledBounds (GetSize imageNode) bb spacingRatio padDistance in
      let newSize := astype_int (add_s (sub bbNewUBound bbNewLBound) 1) in
      let bbOriginalLBound := div bbNewLBound spacingRatio in
      let newOriginIndex :=
        div (s_mul (1 # 2) (sub resampledPixelSpacing oldSpacing)) oldSpacing in
      let newCroppedOriginIndex := add newOriginIndex bbOriginalLBound in
      let newOrigin :=
        TransformContinuousIndexToPhysicalPoint imageNode newCroppedOriginIndex in
      let oldImagePixelType := PixelID imageNode in
      let oldMaskPixelType := PixelID maskNode in
      let imageDirection := Direction imageNode in
      let interpolator := resolveInterpolator interpolator in
      (* pixel type and interpolator are set before each Execute *)
      let rif := mk_rif resampledPixelSpacing imageDirection newSize newOrigin
                        0 0 in
      let rif := SetOutputPixelType rif oldImagePixelType in
      rif ← SetInterpolator rif interpolator;
      let resampledImageNode := ResampleImageFilter_Execute rif imageNode in
      let rif := SetOutputPixelType rif oldMaskPixelType in
      rif ← SetInterpolator rif (PyInt sitkNearestNeighbor);
      let resampledMaskNode := ResampleImageFilter_Execute rif maskNode in
      Return (RetTuple2 (resampledImageNode, resampledMaskNode))
  | _, _ => Return RetNone
  end.

End ImageOperations.

(** ** Array manipulation used by the wavelet decomposition *)

Module Arrays.

Definition at_ (l : list Q) (i : nat) : Q := default 0%Q (l !! i).

(** [a.reshape(sh)] of flat data. *)
Definition reshape (dt : Z) (flat : list Q) (sh : list nat) : result ndarray :=
  if decide (length flat = size_of sh) then Return (mk_ndarray dt sh flat)
  else Raise (ValueError "total size of new array must be unchanged").

(** [numpy.resize(a, new_shape)]: the flattened array, repeated as often
    as needed and cut to the new size; an empty array gives zeros. *)
Definition resize (a : ndarray) (new_shape : list nat) : ndarray :=
  let Na := length (data a) in
  let total_size := size_of new_shape in
  if decide (Na = 0)%nat then
    mk_ndarray (dtype a) new_shape (replicate total_size 0%Q)
  else
    let n_copies := (total_size / Na)%nat in
    let extra := (total_size mod Na)%nat in
    let '(n_copies, extra) :=
      if decide (extra ≠ 0)%nat then (n_copies + 1, Na - extra)%nat
      else (n_copies, extra) in
    let flat := concat (replicate n_copies (data a)) in
    let flat :=
      if decide (0 < extra)%nat then take (length flat - extra) flat
      else flat in
    mk_ndarray (dtype a) new_shape flat.

(** [numpy.transpose(a, (0, 1, 2))] and [numpy.transpose(a, (1, 2, 0))];
    both raise unless [a] has three axes. *)
Definition transpose_012 (a : ndarray) : result ndarray :=
  match shape a with
  | [_; _; _] => Return a
  | _ => Raise (ValueError "axes don't match array")
  end.

Definition transpose_120 (a : ndarray) : result ndarray :=
  match shape a with
  | [s0; s1; s2] =>
      Return (mk_ndarray (dtype a) [s1; s2; s0]
        (j ← seq 0 s1; k ← seq 0 s2; i ← seq 0 s0;
         [at_ (data a) ((i * s1 + j) * s2 + k)]))
  | _ => Raise (ValueError "axes don't match array")
  end.

(** [chain.from_iterable(a)] for a 3-D array: iterating [a] gives its 2-D
    slices, iterating those gives the 1-D lines along the last axis. *)
Definition chain_from_iterable (a : ndarray) : list (list Q) :=
  match shape a with
  | [s0; s1; s2] =>
      (λ r, take s2 (drop (r * s2) (data a))) <$> seq 0 (s0 * s1)
  | _ => []
  end.

(** All 1-D arrays of a list have the length of the first. *)
Definition same_length (rows : list (list Q)) : bool :=
  match rows with
  | [] => true
  | r :: rows' => forallb (λ r', bool_decide (length r' = length r)) rows'
  end.

(** [numpy.hstack] of 1-D arrays: concatenation. *)
Definition hstack (rows : list (list Q)) : result (list Q) :=
  match rows with
  | [] => Raise (ValueError "need at least one array to concatenate")
  | _ => Return (concat rows)
  end.

(** [numpy.vstack] of 1-D arrays: a 2-D array with one row per array. *)
Definition vstack (dt : Z) (rows : list (list Q)) : result ndarray :=
  match rows with
  | [] => Raise (ValueError "need at least one array to concatenate")
  | r :: _ =>
      if same_length rows
      then Return (mk_ndarray dt [length rows; length r] (concat rows))
      else Raise (ValueError "all the input array dimensions must match exactly")
  end.

(** [numpy.dstack] of [N] 1-D arrays of length [m]: shape [(1, m, N)]. *)
Definition dstack (dt : Z) (rows : list (list Q)) : result ndarray :=
  match rows with
  | [] => Raise (ValueError "need at least one array to concatenate")
  | r :: _ =>
      if same_length rows
      then Return (mk_ndarray dt [1; length r; length rows]%nat
                     (i ← seq 0 (length r); row ← rows; [at_ row i]))
      else Raise (ValueError "all the input array dimensions must match exactly")
  end.

(** [numpy.split(a, n)]: [n] blocks of equal size along the first axis. *)
Definition split (a : ndarray) (n : nat) : result (list ndarray) :=
  match shape a with
  | rows :: rest =>
      if decide (n ≠ 0 ∧ rows mod n = 0)%nat then
        let h := (rows / n)%nat in
        let block := (h * size_of rest)%nat in
        Return ((λ b, mk_ndarray (dtype a) (h :: rest)
                        (take block (drop (b * block) (data a))))
                <$> seq 0 n)
      else Raise (ValueError "array split does not result in an equal division")
  | [] => Raise (ValueError "array split requires at least one axis")
  end.

(** [slice.T] of a 2-D array (the only arrays transposed here; a 1-D
    array is its own transpose). *)
Definition T (a : ndarray) : ndarray :=
  match shape a with
  | [rows; cols] =>
      mk_ndarray (dtype a) [cols; rows]
        (j ← seq 0 cols; i ← seq 0 rows; [at_ (data a) (i * cols + j)])
  | _ => a
  end.

(** [numpy.asarray] of a list of 2-D arrays of one shape. *)
Definition asarray (dt : Z) (slices : list ndarray) : result ndarray :=
  match slices with
  | [] => Return (mk_ndarray dt [0%nat] [])
  | s :: _ =>
      if forallb (λ s', bool_decide (shape s' = shape s)) slices
      then Return (mk_ndarray dt (length slices :: shape s)
                     (s' ← slices; data s'))
      else Raise (ValueError "setting an array element with a sequence")
  end.

End Arrays.

(** ** PyWavelets *)

(** [pywt.Wavelet(name)] and the one-level stationary transform
    [pywt.swt(line, wavelet, level=1, start_level=0)[0]], which gives the
    pair [(cA, cD)].  [coeff_dtype] is the element type of the
    coefficient arrays for a given input type. *)
Class PyWavelets : Type := {
  Wavelet : Type;
  pywt_Wavelet : string → result Wavelet;
  pywt_swt : Wavelet → list Q → result (list Q * list Q);
  coeff_dtype : Z → Z
}.

(** ** swt3 *)

Section WaveletDecomposition.

Context `{pywt : PyWavelets}.

Import Arrays.

(** The [wavelet] argument: a [pywt.Wavelet] object or a name. *)
Inductive WaveletArg : Type :=
  | WaveletObject (w : Wavelet)
  | WaveletName (name : string).

(** [sitk.GetArrayFromImage], [sitk.GetImageFromArray] and
    [image.CopyInformation(source)]. *)
Definition GetArrayFromImage (im : Image) : ndarray := voxels im.

Definition GetImageFromArray (a : ndarray) : Image :=
  let n := ndim a in
  mk_Image (dtype a) (replicate n 1%Q) (replicate n 0%Q)
    (i ← seq 0 n; j ← seq 0 n; [if decide (i = j) then 1%Q else 0%Q])
    a.

Definition CopyInformation (im source : Image) : result Image :=
  if decide (GetSize im = GetSize source) then
    Return (mk_Image (PixelID im) (Spacing source) (Origin source)
                     (Direction source) (voxels im))
  else Raise (RuntimeError "source image size does not match this image's size").

(** The loop shared by the three passes: transform every line, collect
    the detail and the approximation coefficients. *)
Definition transform_lines (wavelet : Wavelet) (lines : list (list Q))
    : result (list (list Q) * list (list Q)) :=
  cs ← mapM (pywt_swt wavelet) lines;
  Return (snd <$> cs, fst <$> cs).

Definition _decompose_i (data_ : ndarray) (wavelet : Wavelet)
    : result (ndarray * ndarray) :=
  t ← transpose_012 data_;
  let i_arrays := chain_from_iterable t in
  '(H, L) ← transform_lines wavelet i_arrays;
  let dt := coeff_dtype (dtype data_) in
  H ← (flat ← hstack H; reshape dt flat (shape data_));
  L ← (flat ← hstack L; reshape dt flat (shape data_));
  Return (H, L).

Definition _decompose_j (data_ : ndarray) (wavelet : Wavelet)
    : result (ndarray * ndarray) :=
  t ← transpose_012 data_;
  let j_arrays := chain_from_iterable t in
  '(H, L) ← transform_lines wavelet j_arrays;
  let dt := coeff_dtype (dtype data_) in
  let shape0 := default 0%nat (shape data_ !! 0%nat) in
  H ← (v ← vstack dt H; slices ← split v shape0; asarray dt (T <$> slices));
  L ← (v ← vstack dt L; slices ← split v shape0; asarray dt (T <$> slices));
  Return (H, L).

Definition _decompose_k (data_ : ndarray) (wavelet : Wavelet)
    : result (ndarray * ndarray) :=
  t ← transpose_120 data_;
  let k_arrays := chain_from_iterable t in
  '(H, L) ← transform_lines wavelet k_arrays;
  let dt := coeff_dtype (dtype data_) in
  H ← (d ← dstack dt H; reshape dt (data d) (shape data_));
  L ← (d ← dstack dt L; reshape dt (data d) (shape data_));
  Return (H, L).

(** A Python [for] loop whose body does not use the loop variable. *)
Fixpoint repeat_ {S} (n : nat) (body : S → result S) (s : S) : result S :=
  match n with
  | O => Return s
  | Datatypes.S n' => s' ← body s; repeat_ n' body s'
  end.

(** The body of the first loop (source lines 263-267). *)
Definition skip_level (wavelet : Wavelet) (data_ : ndarray) : result ndarray :=
  '(H, L) ← _decompose_i data_ wavelet;
  '(LH, LL) ← _decompose_j L wavelet;
  '(LLH, LLL) ← _decompose_k LL wavelet;
  Return LLL.

(** Source lines 291-295: one sub-band array becomes an image. *)
Definition subband_image (inputImage : Image) (original_shape : list nat)
    (decImage : ndarray) : result Image :=
  let decTemp := resize decImage original_shape in
  let sitkImage := GetImageFromArray decTemp in
  CopyInformation sitkImage inputImage.

(** The body of the second loop (source lines 271-297).  The dictionary
    entries are converted independently of each other, so the order in
    which [iteritems] visits them does not show in the result. *)
Definition record_level (inputImage : Image) (original_shape : list nat)
    (wavelet : Wavelet) (st : ndarray * list (gmap string Image))
    : result (ndarray * list (gmap string Image)) :=
  let '(data_, ret) := st in
  '(H, L) ← _decompose_i data_ wavelet;
  '(HH, HL) ← _decompose_j H wavelet;
  '(LH, LL) ← _decompose_j L wavelet;
  '(HHH, HHL) ← _decompose_k HH wavelet;
  '(HLH, HLL) ← _decompose_k HL wavelet;
  '(LHH, LHL) ← _decompose_k LH wavelet;
  '(LLH, LLL) ← _decompose_k LL wavelet;
  let data_ := LLL in
  let dec := [("HHH", HHH); ("HHL", HHL); ("HLH", HLH); ("HLL", HLL);
              ("LHH", LHH); ("LHL", LHL); ("LLH", LLH)] in
  dec ← mapM (λ '(decName, decImage),
                sitkImage ← subband_image inputImage original_shape decImage;
                Return (decName, sitkImage)) dec;
  Return (data_, ret ++ [list_to_map dec]).

Definition swt3 (inputImage : Image) (wavelet : WaveletArg)
    (level start_level : Z) : result (Image * list (gmap string Image)) :=
  let matrix := GetArrayFromImage inputImage in
  let data_ := matrix in
  if decide (ndim data_ ≠ 3%nat) then
    Raise (ValueError "Expected 3D data array")
  else
    let original_shape := shape matrix in
    let adjusted_shape :=
      (λ dim, if decide (dim mod 2 ≠ 0)%nat then (dim + 1)%nat else dim)
        <$> original_shape in
    let data_ := resize data_ adjusted_shape in
    wavelet ← match wavelet with
              | WaveletObject w => Return w
              | WaveletName name => pywt_Wavelet name
              end;
    data_ ← repeat_ (Z.to_nat start_level) (skip_level wavelet) data_;
    '(data_, ret) ← repeat_ (Z.to_nat level)
                      (record_level inputImage original_shape wavelet)
                      (data_, []);
    let data_ := resize data_ original_shape in
    let approximation := GetImageFromArray data_ in
    approximation ← CopyInformation approximation inputImage;
    Return (approximation, ret).

End WaveletDecomposition.

(** ** A small implementation of the two libraries

    It serves to run the functions above on concrete volumes.  Labels are
    located by scanning the voxel array, cropping copies the sub-block,
    and resampling takes the nearest source voxel for every kernel
    (axis-aligned images only).  The interpolator numbers are those of
    the docstring of [resampleImage]; the wavelet is the Haar filter pair
    without its irrational normalisation factor. *)

Module Reference.

Import Numpy Arrays.

Local Open Scope nat_scope.

(** Index triples (z, y, x) of a 3-D array, in C order. *)
Definition indices (sh : list nat) : list (nat * nat * nat) :=
  match sh with
  | [nz; ny; nx] => z ← seq 0 nz; y ← seq 0 ny; x ← seq 0 nx; [(z, y, x)]
  | _ => []
  end.

Definition voxel (a : ndarray) (p : nat * nat * nat) : Q :=
  match shape a with
  | [nz; ny; nx] => let '(z, y, x) := p in at_ (data a) ((z * ny + y) * nx + x)
  | _ => 0%Q
  end.

Definition labelled (mask : Image) (label : Z) : list (nat * nat * nat) :=
  filter (λ p, Qeq_bool (voxel (voxels mask) p) (inject_Z label) = true)
         (indices (shape (voxels mask))).

Definition minimum (l : list nat) : nat := foldr Nat.min (default 0 (head l)) l.
Definition maximum (l : list nat) : nat := foldr Nat.max 0 l.

(** Lower and upper index of the label on the axes x, y, z. *)
Definition extent (mask : Image) (label : Z) : list (nat * nat) :=
  let ps := labelled mask label in
  let xs := (λ p : nat * nat * nat, p.2) <$> ps in
  let ys := (λ p : nat * nat * nat, p.1.2) <$> ps in
  let zs := (λ p : nat * nat * nat, p.1.1) <$> ps in
  [(minimum xs, maximum xs); (minimum ys, maximum ys); (minimum zs, maximum zs)].

Definition crop (lower upper : list Z) (im : Image) : Image :=
  match shape (voxels im), Z.to_nat <$> lower, Z.to_nat <$> upper with
  | [nz; ny; nx], [lx; ly; lz], [ux; uy; uz] =>
      let sh := [nz - lz - uz; ny - ly - uy; nx - lx - ux] in
      mk_Image (PixelID im) (Spacing im)
        (add (Origin im) (mul (Spacing im) (to_float lower)))
        (Direction im)
        (mk_ndarray (dtype (voxels im)) sh
           ((λ '(z, y, x), voxel (voxels im) (z + lz, y + ly, x + lx))
            <$> indices sh))
  | _, _, _ => im
  end.

(** The source index nearest to a physical coordinate, if inside. *)
Definition nearest (n : nat) (origin spacing p : Q) : option nat :=
  let i := Qfloor ((p - origin) / spacing + (1 # 2)) in
  if decide (0 ≤ i < Z.of_nat n)%Z then Some (Z.to_nat i) else None.

Definition resample (rif : ResampleImageFilter) (im : Image) : Image :=
  match shape (voxels im), Spacing im, Origin im,
        Z.to_nat <$> Size rif, OutputSpacing rif, OutputOrigin rif with
  | [nz; ny; nx], [sx; sy; sz], [ox; oy; oz],
    [mx; my; mz], [tx; ty; tz], [px; py; pz] =>
      let sh := [mz; my; mx] in
      mk_Image (OutputPixelType rif) (OutputSpacing rif) (OutputOrigin rif)
        (OutputDirection rif)
        (mk_ndarray (OutputPixelType rif) sh
           ((λ '(z, y, x),
               match nearest nz oz sz (pz + inject_Z (Z.of_nat z) * tz)%Q,
                     nearest ny oy sy (py + inject_Z (Z.of_nat y) * ty)%Q,
                     nearest nx ox sx (px + inject_Z (Z.of_nat x) * tx)%Q with
               | Some z', Some y', Some x' => voxel (voxels im) (z', y', x')
               | _, _, _ => 0%Q
               end) <$> indices sh))
  | _, _, _, _, _, _ => im
  end.

Definition namespace (name : string) : option PyObject :=
  if decide (name = "sitkNearestNeighbor") then Some (PyInt 0)
  else if decide (name = "sitkLinear") then Some (PyInt 1)
  else if decide (name = "sitkBSpline") then Some (PyInt 2)
  else if decide (name = "sitkGaussian") then Some (PyInt 3)
  else if decide (name = "ResampleImageFilter") then Some PyOther
  else None.

#[export] Instance engine : SimpleITK := {|
  sitkInt32 := 4;
  sitkNearestNeighbor := 0;
  sitkBSpline := 2;
  Cast im t :=
    mk_Image t (Spacing im) (Origin im) (Direction im)
      (mk_ndarray t (shape (voxels im)) (data (voxels im)));
  LabelStatistics_GetBoundingBox _ mask label :=
    '(lo, hi) ← extent mask label; [Z.of_nat lo; Z.of_nat hi];
  LabelShapeStatistics_GetBoundingBox mask label :=
    let e := extent mask label in
    ((λ lh : nat * nat, Z.of_nat lh.1) <$> e)
      ++ ((λ lh : nat * nat, Z.of_nat (lh.2 - lh.1 + 1)) <$> e);
  CropImageFilter_Execute := crop;
  ResampleImageFilter_Execute := resample;
  TransformContinuousIndexToPhysicalPoint im index :=
    add (Origin im) (mul (Spacing im) index);
  eval_sitk := namespace
|}.

(** Periodic Haar pair: sums and differences of neighbours.  Lines of
    odd length are refused, as [pywt.swt] does. *)
Definition haar (line : list Q) : result (list Q * list Q) :=
  let n := length line in
  if decide (n ≠ 0 ∧ n mod 2 = 0) then
    let next i := at_ line ((i + 1) mod n) in
    Return ((λ i, (at_ line i + next i)%Q) <$> seq 0 n,
            (λ i, (at_ line i - next i)%Q) <$> seq 0 n)
  else Raise (ValueError "Length of data must be even.").

#[export] Instance wavelets : PyWavelets := {|
  Wavelet := unit;
  pywt_Wavelet name :=
    if decide (name = "haar") then Return ()
    else Raise (ValueError "Unknown wavelet name");
  pywt_swt _ := haar;
  coeff_dtype _ := 9%Z
|}.

(** A volume of the given shape, unit spacing, origin 0. *)
Definition volume (sh : list nat) (values : list Z) : Image :=
  mk_Image 1 [1; 1; 1]%Q [0; 0; 0]%Q [1; 0; 0; 0; 1; 0; 0; 0; 1]%Q
    (mk_ndarray 1 sh (inject_Z <$> values)).

(** A 4x4x4 mask whose label 1 fills the 2x2x2 block with lower corner
    (1, 1, 1). *)
Definition mask444 : Image :=
  volume [4; 4; 4]
    ((λ '(z, y, x),
        if decide (1 ≤ z ≤ 2 ∧ 1 ≤ y ≤ 2 ∧ 1 ≤ x ≤ 2) then 1%Z else 0%Z)
     <$> indices [4; 4; 4]).

(** A 2x2x4 mask with label 1 in the voxel x = 0 and label 2 in the
    voxels x = 2, 3 of the first line. *)
Definition two_labels : Image :=
  volume [2; 2; 4] [1; 0; 2; 2;  0; 0; 0; 0;  0; 0; 0; 0;  0; 0; 0; 0]%Z.

(** A 2x4x2 volume of intensities 0 .. 15. *)
Definition ramp242 : Image := volume [2; 4; 2] (seqZ 0 16).

End Reference.

(** ** The formulas of the specification

    Section 4.1, steps 3 and 5-7, and section 4.2, written for one axis
    as the specification words them; the theorems below compare them
    with what the code computes. *)

Module Spec.

Local Open Scope Q_scope.

Definition targetSpacing (boxSize : Z) (target source : Q) : Q :=
  if (boxSize =? 1)%Z then source else target.

Definition newLower (boxLower : Z) (spacingRatio : Q) (padDistance : Z) : Z :=
  Z.max 0
    (Qfloor ((inject_Z boxLower - (1 # 2)) * spacingRatio
             - inject_Z padDistance)).

Definition newUpper (sourceSize boxLower boxSize : Z) (spacingRatio : Q)
    (padDistance : Z) : Z :=
  Z.min (Qceiling (inject_Z sourceSize * spacingRatio) - 1)
    (Qceiling ((inject_Z (boxLower + boxSize) - (1 # 2)) * spacingRatio
               + inject_Z padDistance)).

Definition newSize (sourceSize boxLower boxSize : Z) (spacingRatio : Q)
    (padDistance : Z) : Z :=
  (newUpper sourceSize boxLower boxSize spacingRatio padDistance
   - newLower boxLower spacingRatio padDistance + 1)%Z.

Definition upperMargin (volumeSize boxUpper : Z) : Z :=
  (volumeSize - boxUpper - 1)%Z.

End Spec.

(** ** Predicates used in the statements *)

(** The number of components of a returned tuple ([len(result)]). *)
Definition tuple_length (r : result ResampleReturn) : option nat :=
  match r with
  | Return (RetTuple3 _) => Some 3%nat
  | Return (RetTuple2 _) => Some 2%nat
  | _ => None
  end.

(** In an enumerated angle the first non-zero component is the index [z]
    of the outer loop. *)
Definition layer (v : Angles.angle) : Z :=
  let '(a, b, c) := v in
  if decide (a = 0) then if decide (b = 0) then c else b else a.

(** An array is well formed when it has as many elements as its shape
    says. *)
Definition well_formed (a : ndarray) : Prop :=
  length (data a) = size_of (shape a).

(** A pass returns two well-formed arrays of a known shape. *)
Definition returns_pair (r : result (ndarray * ndarray)) (sh : list nat)
    : Prop :=
  ∃ H L, r = Return (H, L)
    ∧ shape H = sh ∧ well_formed H ∧ shape L = sh ∧ well_formed L.

(** An image on the grid of another: same array shape, same spacing,
    origin and direction. *)
Definition on_grid_of (im source : Image) : Prop :=
  shape (voxels im) = shape (voxels source)
  ∧ Spacing im = Spacing source
  ∧ Origin im = Origin source
  ∧ Direction im = Direction source.

Definition detail_names : list string :=
  ["HHH"; "HHL"; "HLH"; "HLL"; "LHH"; "LHL"; "LLH"].

(** The contract of the external 1-D stationary transform (specification
    section 6): on a line of even, non-zero length it returns an
    approximation and a detail line of the same length. *)
Definition swt_keeps_length `{pywt : PyWavelets} : Prop :=
  ∀ (w : Wavelet) (line : list Q),
    length line ≠ 0%nat → (length line mod 2 = 0)%nat →
    ∃ cA cD, pywt_swt w line = Return (cA, cD)
             ∧ length cA = length line ∧ length cD = length line.

(** * Histograms, the Laplacian of Gaussian filter, array indexing *)

(** ** getHistogram and binImage *)

Module Histogram.

Import Numpy Arrays.

Local Open Scope Q_scope.

(** What can go wrong: [min()] of an empty sequence, a bin width of 0
    (no bin edges can be computed), an empty array of bin edges, bin
    edges that are not monotonic, an index tuple that does not address
    elements of the matrix.  The classes of the Python exceptions
    differ between numpy versions and are not modelled. *)
Inductive error : Type :=
  | EmptySequence
  | ZeroBinWidth
  | NoBinEdges
  | BinsNotMonotonic
  | BadIndex.

Inductive outcome (A : Type) : Type :=
  | Ok (a : A)
  | Error (e : error).
Arguments Ok {A} a.
Arguments Error {A} e.

(** The builtins [min] and [max]: the first smallest, the first largest
    element. *)
Definition py_min (l : list Q) : outcome Q :=
  match l with
  | [] => Error EmptySequence
  | x :: l' => Ok (foldl (λ m y, if Qlt_bool y m then y else m) x l')
  end.

Definition py_max (l : list Q) : outcome Q :=
  match l with
  | [] => Error EmptySequence
  | x :: l' => Ok (foldl (λ m y, if Qlt_bool m y then y else m) x l')
  end.

(** [a % b]: the remainder has the sign of [b]. *)
Definition pymod (a b : Q) : Q := a - inject_Z (Qfloor (a / b)) * b.

(** [numpy.arange(start, stop, step)]. *)
Definition arange (start stop step : Q) : list Q :=
  (λ i : nat, start + inject_Z (Z.of_nat i) * step)
    <$> seq 0 (Z.to_nat (Qceiling ((stop - start) / step))).

(** Bin edges must not decrease ([numpy.histogram]); [numpy.digitize]
    also takes edges that do not increase. *)
Fixpoint nondecreasing (edges : list Q) : bool :=
  match edges with
  | x :: (y :: _) as tl => Qle_bool x y && nondecreasing tl
  | _ => true
  end.

Fixpoint nonincreasing (edges : list Q) : bool :=
  match edges with
  | x :: (y :: _) as tl => Qle_bool y x && nonincreasing tl
  | _ => true
  end.

(** The counts of [numpy.histogram]: every bin is half open, except the
    last, which includes its right edge. *)
Definition in_bin (lo hi : Q) (closed : bool) (v : Q) : bool :=
  Qle_bool lo v && (if closed then Qle_bool v hi else Qlt_bool v hi).

Fixpoint bin_counts (a : list Q) (edges : list Q) : list nat :=
  match edges with
  | lo :: (hi :: rest) as tl =>
      length (filter (λ v, in_bin lo hi (bool_decide (rest = [])) v = true) a)
        :: bin_counts a tl
  | _ => []
  end.

(** [numpy.histogram(a, bins=edges)] for an array of edges. *)
Definition histogram_edges (a edges : list Q) : outcome (list nat * list Q) :=
  match edges with
  | [] => Error NoBinEdges
  | _ => if nondecreasing edges then Ok (bin_counts a edges, edges)
         else Error BinsNotMonotonic
  end.

(** [numpy.histogram(a, bins=1)]: one bin over the range of the data,
    widened by a half on both sides when the range is empty. *)
Definition histogram_1 (a : list Q) : outcome (list nat * list Q) :=
  match py_min a, py_max a with
  | Ok mn, Ok mx =>
      let '(mn, mx) :=
        if Qeq_bool mn mx then (mn - (1 # 2), mx + (1 # 2)) else (mn, mx) in
      Ok (bin_counts a [mn; mx], [mn; mx])
  | Error e, _ | _, Error e => Error e
  end.

Definition getHistogram (binwidth : Q) (parameterValues : list Q)
    : outcome (list nat * list Q) :=
  match py_min parameterValues, py_max parameterValues with
  | Ok mn, Ok mx =>
      if Qeq_bool binwidth 0 then Error ZeroBinWidth
      else
        let lowBound := mn - pymod mn binwidth in
        let highBound := mx + binwidth in
        let binedges := arange lowBound highBound binwidth in
        if decide (length binedges = 1%nat) then histogram_1 parameterValues
        else histogram_edges parameterValues binedges
  | Error e, _ | _, Error e => Error e
  end.

(** [numpy.digitize(x, bins)]: for edges that do not decrease, the number
    of edges not above the value. *)
Definition digitize (x bins : list Q) : outcome (list nat) :=
  if nondecreasing bins then
    Ok ((λ v, length (filter (λ e, Qle_bool e v = true) bins)) <$> x)
  else if nonincreasing bins then
    Ok ((λ v, length (filter (λ e, Qlt_bool v e = true) bins)) <$> x)
  else Error BinsNotMonotonic.

(** The flat positions addressed by a tuple of index arrays, one array
    per axis as [numpy.where] returns them; an array of length 1 is
    broadcast.  (numpy also accepts shorter tuples, which select whole
    sub-arrays; they are outside this model and reported as [BadIndex].) *)
Definition index_at (n : nat) (axis : list nat) : option nat :=
  if decide (length axis = 1%nat) then axis !! 0%nat else axis !! n.

Definition ravel (sh : list nat) (idx : list nat) : option nat :=
  if decide (length idx = length sh)
  then foldl (λ acc '(i, d),
                p ← acc; if decide (i < d)%nat then Some (p * d + i)%nat else None)
             (Some 0%nat) (zip idx sh)
  else None.

Definition positions (sh : list nat) (coords : list (list nat))
    : outcome (list nat) :=
  let n := foldr Nat.max 0%nat (length <$> coords) in
  match mapM (λ k, idx ← mapM (index_at k) coords; ravel sh idx) (seq 0 n) with
  | Some ps => Ok ps
  | None => Error BadIndex
  end.

(** [edges[-1] += 1]. *)
Definition increment_last (edges : list Q) : outcome (list Q) :=
  match edges with
  | [] => Error BadIndex
  | _ => Ok (alter (λ e, e + 1) (length edges - 1)%nat edges)
  end.

(** [matrix[coordinates] = values]. *)
Definition assign (flat : list Q) (ps : list nat) (values : list Q) : list Q :=
  foldl (λ d '(p, v), <[p := v]> d) flat (zip ps values).

Definition binImage (binwidth : Q) (parameterMatrix : ndarray)
    (parameterMatrixCoordinates : list (list nat))
    : outcome (ndarray * (list nat * list Q)) :=
  match positions (shape parameterMatrix) parameterMatrixCoordinates with
  | Error e => Error e
  | Ok ps =>
    let values := at_ (data parameterMatrix) <$> ps in
    match getHistogram binwidth values with
    | Error e => Error e
    | Ok (counts, edges) =>
      match increment_last edges with
      | Error e => Error e
      | Ok edges =>
        match digitize values edges with
        | Error e => Error e
        | Ok digits =>
            Ok (mk_ndarray (dtype parameterMatrix) (shape parameterMatrix)
                  (assign (data parameterMatrix) ps
                          ((λ b : nat, inject_Z (Z.of_nat b)) <$> digits)),
                (counts, edges))
        end
      end
    end
  end.

End Histogram.

(** ** applyLoG *)

(** [sitk.LaplacianRecursiveGaussianImageFilter] with normalisation
    across scale, as a function of sigma and the input. *)
Class LaplacianFilter : Type := {
  LaplacianRecursiveGaussian_Execute : Q → Image → Image
}.

(** [None] stands for the two branches that log a warning and return
    [None]. *)
Definition applyLoG `{LaplacianFilter} (inputImage : Image) (sigmaValue : Q)
    : option Image :=
  if Numpy.Qlt_bool 0 sigmaValue then
    let size := Numpy.to_float (GetSize inputImage) in
    let spacing := Spacing inputImage in
    let needed :=
      Numpy.add_s (Numpy.ceil ((λ s, sigmaValue / s)%Q <$> spacing)) 1 in
    if forallb id (zip_with (λ s n, Qle_bool n s) size needed)
    then Some (LaplacianRecursiveGaussian_Execute sigmaValue inputImage)
    else None
  else None.


(** A stand-in for the Laplacian of Gaussian filter, to run [applyLoG]
    on concrete images: it returns its input. *)
Definition identity_filter : LaplacianFilter :=
  {| LaplacianRecursiveGaussian_Execute := λ _ im, im |}.

(** ** Elements, lines and columns of a 3-D array *)

Module Indexing.
Import Arrays.
Local Open Scope nat_scope.

(** [a[i, j, k]] of a 3-D array. *)
Definition element (a : ndarray) (i j k : nat) : Q :=
  match shape a with
  | [_; s1; s2] => at_ (data a) ((i * s1 + j) * s2 + k)
  | _ => 0%Q
  end.

(** [a[i, j, :]] and [a[:, j, k]] of a 3-D array. *)
Definition line (a : ndarray) (i j : nat) : list Q :=
  match shape a with
  | [_; s1; s2] => take s2 (drop ((i * s1 + j) * s2) (data a))
  | _ => []
  end.

Definition column (a : ndarray) (j k : nat) : list Q :=
  match shape a with
  | [s0; _; _] => (λ i, element a i j k) <$> seq 0 s0
  | _ => []
  end.

End Indexing.

(** ** Predicates on the wavelet decomposition *)

(** The shape [swt3] pads to: every odd axis gets one more element. *)
Definition pad_even (sh : list nat) : list nat :=
  (λ dim, if decide (dim mod 2 ≠ 0)%nat then (dim + 1)%nat else dim) <$> sh.

(** A dictionary of one level: the seven detail names, every image on
    the grid of the source. *)
Definition detail_dict (source : Image) (dec : gmap string Image) : Prop :=
  dom dec = list_to_set detail_names
  ∧ ∀ name im, dec !! name = Some im → on_grid_of im source.

(** The array between two levels: well formed, with the first axis of
    the padded shape and the other two in either order. *)
Definition level_state (s0 s1 s2 : nat) (d : ndarray) : Prop :=
  well_formed d ∧ (shape d = [s0; s1; s2] ∨ shape d = [s0; s2; s1]).

(** Sample data for the histogram functions: five grey values on a line,
    and the index tuple selecting all but the fourth. *)
Module Samples.

Definition grey_values : list Q := inject_Z <$> [3; 30; 52; 75; 100]%Z.

Definition grey_line : ndarray := mk_ndarray 1 [5]%nat grey_values.

Definition grey_coords : list (list nat) := [[0; 1; 2; 4]%nat].


End Samples.

(** * Properties *)

(** ** generateAngles *)

Section AnglesFacts.

Import Angles.

Lemma elem_of_xrange (lo hi k : Z) : k ∈ xrange lo hi ↔ lo ≤ k < hi.
Proof. unfold xrange. rewrite elem_of_seqZ. lia. Qed.

Lemma NoDup_xrange (lo hi : Z) : NoDup (xrange lo hi).
Proof. apply NoDup_seqZ. Qed.

(** Membership in the enumeration, loop by loop. *)
Lemma elem_of_enumerate (d : Z) (v : angle) :
  v ∈ enumerate d ↔
  ∃ z, 1 ≤ z ≤ d ∧
    (v = (0, 0, z) ∨
     ∃ y, - d ≤ y ≤ d ∧
       (v = (0, z, y) ∨ ∃ x, - d ≤ x ≤ d ∧ v = (z, y, x))).
Proof.
  unfold enumerate. rewrite list_elem_of_bind. split.
  - intros (z & Hv & Hz%elem_of_xrange). exists z. split; [lia|].
    apply elem_of_cons in Hv as [->|Hv]; [by left|right].
    apply list_elem_of_bind in Hv as (y & Hv & Hy%elem_of_xrange).
    exists y. split; [lia|].
    apply elem_of_cons in Hv as [->|Hv]; [by left|right].
    apply list_elem_of_bind in Hv as (x & Hv & Hx%elem_of_xrange).
    exists x. split; [lia|]. by apply list_elem_of_singleton in Hv.
  - intros (z & Hz & Hv). exists z. split; [|apply elem_of_xrange; lia].
    destruct Hv as [->|(y & Hy & Hv)]; [left|right].
    apply list_elem_of_bind. exists y. split; [|apply elem_of_xrange; lia].
    destruct Hv as [->|(x & Hx & ->)]; [left|right].
    apply list_elem_of_bind. exists x. split; [|apply elem_of_xrange; lia].
    by apply list_elem_of_singleton.
Qed.

Lemma NoDup_enumerate (d : Z) : NoDup (enumerate d).
Proof.
  unfold enumerate. apply NoDup_bind; [| |apply NoDup_xrange].
  - (* vectors of different layers differ *)
    intros z1 z2 v Hz1%elem_of_xrange Hz2%elem_of_xrange H1 H2.
    assert (Hl : ∀ z, 1 ≤ z →
      v ∈ (0, 0, z) :: (y ← xrange (- d) (d + 1);
             (0, z, y) :: (x ← xrange (- d) (d + 1); [(z, y, x)])) →
      layer v = z).
    { intros z Hz Hv. apply elem_of_cons in Hv as [->|Hv]; [done|].
      apply list_elem_of_bind in Hv as (y & Hv & _).
      apply elem_of_cons in Hv as [->|Hv].
      - simpl. repeat case_decide; lia.
      - apply list_elem_of_bind in Hv as (x & ->%list_elem_of_singleton & _).
        simpl. repeat case_decide; lia. }
    rewrite <- (Hl z1), <- (Hl z2); [done|lia|done|lia|done].
  - intros z Hz%elem_of_xrange. apply NoDup_cons. split.
    + intros (y & Hv & _)%list_elem_of_bind.
      apply elem_of_cons in Hv as [Hv|Hv]; [simplify_eq; lia|].
      apply list_elem_of_bind in Hv as (x & Hv%list_elem_of_singleton & _).
      simplify_eq; lia.
    + apply NoDup_bind; [| |apply NoDup_xrange].
      * intros y1 y2 v _ _ H1 H2.
        assert (Hm : ∀ y,
          v ∈ (0, z, y) :: (x ← xrange (- d) (d + 1); [(z, y, x)]) →
          (let '(a, b, c) := v in if decide (a = 0) then c else b) = y).
        { intros y Hv. apply elem_of_cons in Hv as [->|Hv]; [done|].
          apply list_elem_of_bind in Hv as (x & ->%list_elem_of_singleton & _).
          case_decide; [lia|done]. }
        by rewrite <- (Hm y1), <- (Hm y2).
      * intros y _. apply NoDup_cons. split.
        -- intros (x & Hv%list_elem_of_singleton & _)%list_elem_of_bind.
           simplify_eq; lia.
        -- apply NoDup_bind; [| |apply NoDup_xrange].
           ++ intros x1 x2 v _ _ ->%list_elem_of_singleton
                ?%list_elem_of_singleton. by simplify_eq.
           ++ intros. apply NoDup_singleton.
Qed.

(** The returned rows are the enumerated ones with a positive margin on
    every axis. *)
Lemma elem_of_generateAngles (size : angle) (d : Z) (v : angle) :
  v ∈ generateAngles size d ↔ v ∈ enumerate d ∧ 0 < min_margin size v.
Proof.
  unfold generateAngles, impossible. rewrite list_elem_of_filter.
  rewrite Z.leb_gt. tauto.
Qed.

End AnglesFacts.

(** C5.  For [maxDistance >= 1] and a bounding size whose three
    components exceed [maxDistance], [generateAngles] returns a non-empty
    list of integer vectors without duplicates and without the zero
    vector; an enumerated vector is in the result exactly when its margin
    [min(size - |v|)] is positive, so every vector with margin [<= 0] has
    been removed.  [generateAngles((5,5,5), 1)] has 13 rows, pairwise
    distinct, none zero, with all components in {-1, 0, 1}. *)
Theorem generateAngles_unique_nonzero (s0 s1 s2 d : Z) :
  1 ≤ d → d < s0 → d < s1 → d < s2 →
  Angles.generateAngles (s0, s1, s2) d ≠ []
  ∧ NoDup (Angles.generateAngles (s0, s1, s2) d)
  ∧ ((0, 0, 0) ∉ Angles.generateAngles (s0, s1, s2) d)
  ∧ (∀ v, v ∈ Angles.enumerate d → Angles.min_margin (s0, s1, s2) v ≤ 0 →
          v ∉ Angles.generateAngles (s0, s1, s2) d)
  ∧ (∀ v, v ∈ Angles.enumerate d → 0 < Angles.min_margin (s0, s1, s2) v →
          v ∈ Angles.generateAngles (s0, s1, s2) d)
  ∧ length (Angles.generateAngles (5, 5, 5) 1) = 13%nat
  ∧ NoDup (Angles.generateAngles (5, 5, 5) 1)
  ∧ Forall (λ v : Angles.angle, v ≠ (0, 0, 0) ∧
              (-1 ≤ v.1.1 ≤ 1) ∧ (-1 ≤ v.1.2 ≤ 1) ∧ (-1 ≤ v.2 ≤ 1))
           (Angles.generateAngles (5, 5, 5) 1).
Proof.
  intros Hd H0 H1 H2. split_and!.
  - assert (Hin : (0, 0, 1) ∈ Angles.generateAngles (s0, s1, s2) d).
    { apply elem_of_generateAngles. split.
      - apply elem_of_enumerate. exists 1. split; [lia|by left].
      - simpl. lia. }
    intros Heq. rewrite Heq in Hin. by apply elem_of_nil in Hin.
  - apply NoDup_filter, NoDup_enumerate.
  - intros [Hin _]%elem_of_generateAngles.
    apply elem_of_enumerate in Hin as (z & Hz & Hv).
    destruct Hv as [?|(y & _ & [?|(x & _ & ?)])]; simplify_eq; lia.
  - intros v _ Hle [_ Hlt]%elem_of_generateAngles. lia.
  - intros v Hv Hlt. by apply elem_of_generateAngles.
  - by vm_compute.
  - apply (bool_decide_unpack _). by vm_compute.
  - apply (bool_decide_unpack _). by vm_compute.
Qed.

Lemma generateAngles_unique_nonzero_witness :
  Angles.generateAngles (6, 7, 8) 2 ≠ []
  ∧ NoDup (Angles.generateAngles (6, 7, 8) 2)
  ∧ ((0, 0, 0) ∉ Angles.generateAngles (6, 7, 8) 2).
Proof.
  destruct (generateAngles_unique_nonzero 6 7 8 2) as (Hne & Hnd & Hz & _);
    [lia..|].
  exact (conj Hne (conj Hnd Hz)).
Defined.

(** ** cropToTumorMask *)

(** C2.  With [S] the size of the mask and [B] the bounding box used (the
    one passed in, or the one the label statistics give), the crop filter
    is run on image and mask with lower margins [B.lower] and upper
    margins [S - B.upper - 1]; on every axis lower margin, box extent and
    upper margin add up to [S], and for a box inside the volume the
    margins are not negative.  For [S = (4,4,4)] and the box with lower
    (1,1,1) and size (2,2,2) both margins are (1,1,1). *)
Theorem cropToTumorMask_margins `{sitk : SimpleITK}
    (imageNode maskNode : Image) (label : Z) (boundingBox : option (list Z))
    (s0 s1 s2 l0 u0 l1 u1 l2 u2 : Z) :
  let castMask := Cast maskNode sitkInt32 in
  let lowerMargins := [l0; l1; l2] in
  let upperMargins :=
    [Spec.upperMargin s0 u0; Spec.upperMargin s1 u1; Spec.upperMargin s2 u2] in
  GetSize castMask = [s0; s1; s2] →
  match boundingBox with
  | Some bb => bb
  | None => LabelStatistics_GetBoundingBox imageNode castMask label
  end = [l0; u0; l1; u1; l2; u2] →
  0 ≤ l0 ≤ u0 ∧ u0 < s0 → 0 ≤ l1 ≤ u1 ∧ u1 < s1 → 0 ≤ l2 ≤ u2 ∧ u2 < s2 →
  cropMargins [s0; s1; s2] [l0; u0; l1; u1; l2; u2]
    = (lowerMargins, upperMargins)
  ∧ cropToTumorMask imageNode maskNode label boundingBox
    = (CropImageFilter_Execute lowerMargins upperMargins imageNode,
       Cast (CropImageFilter_Execute lowerMargins upperMargins castMask)
            (PixelID maskNode),
       [l0; u0; l1; u1; l2; u2])
  ∧ l0 + (u0 - l0 + 1) + Spec.upperMargin s0 u0 = s0
  ∧ l1 + (u1 - l1 + 1) + Spec.upperMargin s1 u1 = s1
  ∧ l2 + (u2 - l2 + 1) + Spec.upperMargin s2 u2 = s2
  ∧ Forall (λ m, 0 ≤ m) (lowerMargins ++ upperMargins)
  ∧ cropMargins [4; 4; 4] [1; 1 + 2 - 1; 1; 1 + 2 - 1; 1; 1 + 2 - 1]
    = ([1; 1; 1], [1; 1; 1]).
Proof.
  intros castMask lowerMargins upperMargins Hsize Hbb H0 H1 H2.
  split_and!.
  - reflexivity.
  - unfold cropToTumorMask. fold castMask. rewrite Hsize.
    destruct boundingBox as [bb|]; rewrite Hbb; reflexivity.
  - unfold Spec.upperMargin. lia.
  - unfold Spec.upperMargin. lia.
  - unfold Spec.upperMargin. lia.
  - unfold lowerMargins, upperMargins, Spec.upperMargin.
    repeat (apply Forall_cons; split; [lia|]). apply Forall_nil_2.
  - reflexivity.
Qed.

Section CropExample.

Import Reference.

Lemma cropToTumorMask_margins_witness :
  cropToTumorMask mask444 mask444 1 None
  = (CropImageFilter_Execute [1; 1; 1] [1; 1; 1] mask444,
     Cast (CropImageFilter_Execute [1; 1; 1] [1; 1; 1]
             (Cast mask444 sitkInt32))
          (PixelID mask444),
     [1; 2; 1; 2; 1; 2]).
Proof.
  refine (proj1 (proj2 (cropToTumorMask_margins
    mask444 mask444 1 None 4 4 4 1 2 1 2 1 2 _ _ _ _ _))).
  - reflexivity.
  - by vm_compute.
  - lia.
  - lia.
  - lia.
Defined.

End CropExample.

(** ** resampleImage *)

Section ResampleFacts.

Context `{sitk : SimpleITK}.

Import Numpy.

(** Rounding and clamping of one component. *)
Lemma Qlt_bool_inject_Z (a b : Z) :
  Qlt_bool (inject_Z a) (inject_Z b) = bool_decide (a < b).
Proof.
  unfold Qlt_bool, Qle_bool. simpl. rewrite !Z.mul_1_r.
  case_bool_decide;
    [apply negb_true_iff, Z.leb_gt | apply negb_false_iff, Z.leb_le]; lia.
Qed.

Lemma clamp_lower (f : Z) :
  (if Qlt_bool (inject_Z f) 0 then 0%Q else inject_Z f) = inject_Z (Z.max 0 f).
Proof.
  change 0%Q with (inject_Z 0). rewrite Qlt_bool_inject_Z.
  case_bool_decide; f_equal; lia.
Qed.

Lemma ceil_minus_1 (c : Z) : (inject_Z c - 1)%Q = inject_Z (c - 1).
Proof. unfold Qminus, Qplus, inject_Z. simpl. f_equal. lia. Qed.

Lemma clamp_upper (m u : Z) :
  (if Qlt_bool (inject_Z m) (inject_Z u) then inject_Z m else inject_Z u)
  = inject_Z (Z.min m u).
Proof. rewrite Qlt_bool_inject_Z. case_bool_decide; f_equal; lia. Qed.

Lemma trunc_size (u l : Z) : trunc (inject_Z u - inject_Z l + 1) = u - l + 1.
Proof.
  unfold trunc, Qceiling, Qfloor, Qminus, Qplus, Qopp, inject_Z. simpl.
  destruct (Qlt_bool _ _); rewrite ?Z.div_1_r; lia.
Qed.

(** The bounds computed by the code are the clamped roundings of the
    specification, axis by axis. *)
Lemma resampledBounds_axes (n0 n1 n2 l0 l1 l2 z0 z1 z2 : Z) (r0 r1 r2 : Q)
    (pad : Z) :
  resampledBounds [n0; n1; n2] [l0; l1; l2; z0; z1; z2] [r0; r1; r2] pad
  = (inject_Z <$> [Spec.newLower l0 r0 pad; Spec.newLower l1 r1 pad;
                   Spec.newLower l2 r2 pad],
     inject_Z <$> [Spec.newUpper n0 l0 z0 r0 pad; Spec.newUpper n1 l1 z1 r1 pad;
                   Spec.newUpper n2 l2 z2 r2 pad]).
Proof.
  unfold resampledBounds, Spec.newLower, Spec.newUpper.
  cbn -[Qfloor Qceiling Qlt_bool Qmult Qminus Qplus inject_Z Z.max Z.min].
  rewrite !ceil_minus_1, !clamp_lower, !clamp_upper. reflexivity.
Qed.

Lemma effectiveSpacing_axes (l0 l1 l2 z0 z1 z2 : Z) (o0 o1 o2 t0 t1 t2 : Q) :
  effectiveSpacing (drop 3 [l0; l1; l2; z0; z1; z2]) [t0; t1; t2] [o0; o1; o2]
  = [Spec.targetSpacing z0 t0 o0; Spec.targetSpacing z1 t1 o1;
     Spec.targetSpacing z2 t2 o2].
Proof.
  unfold effectiveSpacing, Spec.targetSpacing, where_. simpl.
  by destruct (z0 =? 1), (z1 =? 1), (z2 =? 1).
Qed.

(** The resampling branch, with every intermediate value written per
    axis: both filter runs use the effective spacing, the direction of
    the image and the new size; the image is sampled with the resolved
    interpolator, the mask with nearest neighbour. *)
Lemma resampleImage_resampled (imageNode maskNode : Image) (rps : list Q)
    (interpolator : PyObject) (label padDistance k : Z)
    (n0 n1 n2 l0 l1 l2 z0 z1 z2 : Z) (o0 o1 o2 t0 t1 t2 : Q) :
  array_equal (Spacing imageNode) rps = false →
  Spacing imageNode = [o0; o1; o2] →
  rps = [t0; t1; t2] →
  GetSize imageNode = [n0; n1; n2] →
  LabelShapeStatistics_GetBoundingBox maskNode label
    = [l0; l1; l2; z0; z1; z2] →
  resolveInterpolator interpolator = PyInt k →
  let e0 := Spec.targetSpacing z0 t0 o0 in
  let e1 := Spec.targetSpacing z1 t1 o1 in
  let e2 := Spec.targetSpacing z2 t2 o2 in
  let newSize := [Spec.newSize n0 l0 z0 (o0 / e0) padDistance;
                  Spec.newSize n1 l1 z1 (o1 / e1) padDistance;
                  Spec.newSize n2 l2 z2 (o2 / e2) padDistance] in
  ∃ newOrigin,
    resampleImage (Some imageNode) (Some maskNode) rps interpolator label
                  padDistance
    = Return (RetTuple2
        (ResampleImageFilter_Execute
           (mk_rif [e0; e1; e2] (Direction imageNode) newSize newOrigin
                   (PixelID imageNode) k) imageNode,
         ResampleImageFilter_Execute
           (mk_rif [e0; e1; e2] (Direction imageNode) newSize newOrigin
                   (PixelID maskNode) sitkNearestNeighbor) maskNode)).
Proof.
  intros Hne Ho Ht Hn Hbb Hk. unfold resampleImage.
  rewrite Hne, Hbb, Hn, Hk. subst rps. rewrite Ho.
  rewrite effectiveSpacing_axes. unfold div at 1. cbn [zip_with].
  rewrite resampledBounds_axes.
  eexists. cbn [fmap list_fmap sub add_s astype_int zip_with mbind result_bind
                SetOutputPixelType SetInterpolator OutputSpacing
                OutputDirection Size OutputOrigin OutputPixelType Interpolator].
  rewrite !trunc_size. reflexivity.
Qed.

(** With both inputs present and equal spacings the call is
    [cropToTumorMask(imageNode, maskNode)]: label 1, whatever [label]. *)
Lemma resampleImage_equal_spacing (imageNode maskNode : Image) (rps : list Q)
    (interpolator : PyObject) (label padDistance : Z) :
  array_equal (Spacing imageNode) rps = true →
  resampleImage (Some imageNode) (Some maskNode) rps interpolator label
                padDistance
  = Return (RetTuple3 (cropToTumorMask imageNode maskNode 1 None)).
Proof. intros Heq. unfold resampleImage. by rewrite Heq. Qed.

(** With different spacings and an interpolator that resolves to an
    enumerator, the call returns a pair. *)
Lemma resampleImage_pair (imageNode maskNode : Image) (rps : list Q)
    (interpolator : PyObject) (label padDistance k : Z) :
  array_equal (Spacing imageNode) rps = false →
  resolveInterpolator interpolator = PyInt k →
  ∃ t, resampleImage (Some imageNode) (Some maskNode) rps interpolator label
                     padDistance = Return (RetTuple2 t).
Proof.
  intros Hne Hk. unfold resampleImage. rewrite Hne, Hk.
  destruct (resampledBounds _ _ _ _) as [lo hi].
  cbn [mbind result_bind SetInterpolator]. by eexists.
Qed.

End ResampleFacts.



(** C7.  When the image or the mask is [None], [resampleImage] returns
    [None]; nothing is raised and no library operation is consulted. *)
Theorem resampleImage_missing_input `{sitk : SimpleITK}
    (imageNode maskNode : option Image) (resampledPixelSpacing : list Q)
    (interpolator : PyObject) (label padDistance : Z) :
  imageNode = None ∨ maskNode = None →
  resampleImage imageNode maskNode resampledPixelSpacing interpolator label
                padDistance = Return RetNone.
Proof.
  intros [-> | ->]; unfold resampleImage; [done|]. by destruct imageNode.
Qed.

(** C9.  On the resampling path the spacing handed to the resampling
    filter, which is also the one the spacing ratio is taken from, is per
    axis the source spacing where the box of the label has size 1 and the
    requested spacing where it has another size. *)
Theorem resampleImage_single_slice_axes `{sitk : SimpleITK}
    (imageNode maskNode : Image) (rps : list Q) (interpolator : PyObject)
    (label padDistance k : Z)
    (n0 n1 n2 l0 l1 l2 z0 z1 z2 : Z) (o0 o1 o2 t0 t1 t2 : Q) :
  Numpy.array_equal (Spacing imageNode) rps = false →
  Spacing imageNode = [o0; o1; o2] →
  rps = [t0; t1; t2] →
  GetSize imageNode = [n0; n1; n2] →
  LabelShapeStatistics_GetBoundingBox maskNode label
    = [l0; l1; l2; z0; z1; z2] →
  resolveInterpolator interpolator = PyInt k →
  ∃ e0 e1 e2 newOrigin,
    (e0 = if decide (z0 = 1) then o0 else t0)
    ∧ (e1 = if decide (z1 = 1) then o1 else t1)
    ∧ (e2 = if decide (z2 = 1) then o2 else t2)
    ∧ effectiveSpacing [z0; z1; z2] rps (Spacing imageNode) = [e0; e1; e2]
    ∧ let newSize := [Spec.newSize n0 l0 z0 (o0 / e0) padDistance;
                      Spec.newSize n1 l1 z1 (o1 / e1) padDistance;
                      Spec.newSize n2 l2 z2 (o2 / e2) padDistance] in
      resampleImage (Some imageNode) (Some maskNode) rps interpolator label
                    padDistance
      = Return (RetTuple2
          (ResampleImageFilter_Execute
             (mk_rif [e0; e1; e2] (Direction imageNode) newSize newOrigin
                     (PixelID imageNode) k) imageNode,
           ResampleImageFilter_Execute
             (mk_rif [e0; e1; e2] (Direction imageNode) newSize newOrigin
                     (PixelID maskNode) sitkNearestNeighbor) maskNode)).
Proof.
  intros Hne Ho Ht Hn Hbb Hk.
  destruct (resampleImage_resampled imageNode maskNode rps interpolator label
              padDistance k n0 n1 n2 l0 l1 l2 z0 z1 z2 o0 o1 o2 t0 t1 t2
              Hne Ho Ht Hn Hbb Hk) as [newOrigin Hres].
  assert (Hts : ∀ z t o,
            Spec.targetSpacing z t o = if decide (z = 1) then o else t).
  { intros z t o. unfold Spec.targetSpacing.
    destruct (Z.eqb_spec z 1); by case_decide. }
  exists (Spec.targetSpacing z0 t0 o0), (Spec.targetSpacing z1 t1 o1),
         (Spec.targetSpacing z2 t2 o2), newOrigin.
  split_and!; [apply Hts..| |exact Hres].
  rewrite Ho, Ht. apply (effectiveSpacing_axes 0 0 0).
Qed.


(** C10.  With equal spacings the result is the 3-tuple of
    [cropToTumorMask], bounding box included; on the resampling path it
    is a pair.  The two calls on the example mask, with spacing (1,1,1)
    and (2,2,2), return tuples of length 3 and 2. *)
Theorem resampleImage_result_arity `{sitk : SimpleITK}
    (imageNode maskNode : Image) (rps : list Q) (interpolator : PyObject)
    (label padDistance : Z) :
  let result := resampleImage (Some imageNode) (Some maskNode) rps
                              interpolator label padDistance in
  (Numpy.array_equal (Spacing imageNode) rps = true →
   ∃ croppedImage croppedMask boundingBox,
     result = Return (RetTuple3 (croppedImage, croppedMask, boundingBox))
     ∧ tuple_length result = Some 3%nat)
  ∧ (Numpy.array_equal (Spacing imageNode) rps = false →
     (∃ k, resolveInterpolator interpolator = PyInt k) →
     ∃ resampledImage resampledMask,
       result = Return (RetTuple2 (resampledImage, resampledMask))
       ∧ tuple_length result = Some 2%nat)
  ∧ tuple_length
      (resampleImage (sitk := Reference.engine) (Some Reference.mask444)
         (Some Reference.mask444) [1; 1; 1]%Q (PyInt 2) 1 5) = Some 3%nat
  ∧ tuple_length
      (resampleImage (sitk := Reference.engine) (Some Reference.mask444)
         (Some Reference.mask444) [2; 2; 2]%Q (PyInt 2) 1 5) = Some 2%nat.
Proof.
  intros result. split_and!.
  - intros Heq. unfold result. rewrite resampleImage_equal_spacing by done.
    destruct (cropToTumorMask _ _ _ _) as [[i m] bb]. by exists i, m, bb.
  - intros Hne [k Hk]. unfold result.
    destruct (resampleImage_pair imageNode maskNode rps interpolator label
                padDistance k Hne Hk) as [[i m] ->]. by exists i, m.
  - by vm_compute.
  - by vm_compute.
Qed.


Section ResampleExamples.

Import Reference.

Lemma resampleImage_missing_input_witness :
  resampleImage None (Some mask444) [2; 2; 2]%Q (PyInt 2) 1 5
  = Return RetNone.
Proof.
  apply (resampleImage_missing_input None (Some mask444)). by left.
Defined.

Lemma resampleImage_single_slice_axes_witness :
  ∃ e0 e1 e2 newOrigin,
    (e0 = if decide (2 = 1) then 1%Q else (1 # 2)%Q)
    ∧ (e1 = if decide (1 = 1) then 1%Q else (1 # 2)%Q)
    ∧ (e2 = if decide (1 = 1) then 1%Q else (1 # 2)%Q)
    ∧ effectiveSpacing [2; 1; 1] [1 # 2; 1 # 2; 1 # 2]%Q (Spacing two_labels)
      = [e0; e1; e2]
    ∧ let newSize := [Spec.newSize 4 2 2 (1 / e0) 1;
                      Spec.newSize 2 0 1 (1 / e1) 1;
                      Spec.newSize 2 0 1 (1 / e2) 1] in
      resampleImage (Some two_labels) (Some two_labels)
                    [1 # 2; 1 # 2; 1 # 2]%Q (PyStr "sitkLinear") 2 1
      = Return (RetTuple2
          (ResampleImageFilter_Execute
             (mk_rif [e0; e1; e2] (Direction two_labels) newSize newOrigin
                     (PixelID two_labels) 1) two_labels,
           ResampleImageFilter_Execute
             (mk_rif [e0; e1; e2] (Direction two_labels) newSize newOrigin
                     (PixelID two_labels) sitkNearestNeighbor) two_labels)).
Proof.
  apply (resampleImage_single_slice_axes two_labels two_labels
           [1 # 2; 1 # 2; 1 # 2]%Q (PyStr "sitkLinear") 2 1 1
           4 2 2 2 0 0 2 1 1 1 1 1 (1 # 2) (1 # 2) (1 # 2));
    by vm_compute.
Defined.


Lemma resampleImage_result_arity_witness :
  ∃ resampledImage resampledMask,
    resampleImage (Some mask444) (Some mask444) [2; 2; 2]%Q
                  (PyStr "sitkLinear") 1 5
    = Return (RetTuple2 (resampledImage, resampledMask))
    ∧ tuple_length
        (resampleImage (Some mask444) (Some mask444) [2; 2; 2]%Q
                       (PyStr "sitkLinear") 1 5) = Some 2%nat.
Proof.
  apply (proj1 (proj2 (resampleImage_result_arity mask444 mask444
                         [2; 2; 2]%Q (PyStr "sitkLinear") 1 5))).
  - by vm_compute.
  - by exists 1.
Defined.



(** C6 at [label = 2].  The spacings are equal, so the call crops; it
    crops to the box of label 1, which is the voxel x = 0, and not to
    the box of label 2, which spans x = 2..3. *)
Lemma resampleImage_equal_spacing_ignores_label :
  let result := resampleImage (Some two_labels) (Some two_labels)
                              [1; 1; 1]%Q (PyInt 2) 2 5 in
  result = Return (RetTuple3 (cropToTumorMask two_labels two_labels 1 None))
  ∧ (∃ croppedImage croppedMask,
       result = Return (RetTuple3 (croppedImage, croppedMask,
                                   [0; 0; 0; 0; 0; 0])))
  ∧ (cropToTumorMask two_labels two_labels 2 None).2 = [2; 3; 0; 0; 0; 0]
  ∧ result ≠ Return (RetTuple3 (cropToTumorMask two_labels two_labels 2 None)).
Proof.
  split_and!.
  - by vm_compute.
  - eexists _, _. by vm_compute.
  - by vm_compute.
  - vm_compute. discriminate.
Qed.

End ResampleExamples.

(** ** swt3 *)

Section WaveletFacts.

Context `{pywt : PyWavelets}.

Import Arrays.

Local Open Scope nat_scope.

Lemma length_bind_const {A B} (f : A → list B) (l : list A) (n : nat) :
  (∀ x, x ∈ l → length (f x) = n) → length (l ≫= f) = length l * n.
Proof.
  induction l as [|x l IH]; intros Hf; csimpl; [done|].
  rewrite length_app, Hf, IH; [lia| |left]. intros y Hy. apply Hf. by right.
Qed.

Lemma length_concat_const {A} (rows : list (list A)) (n : nat) :
  Forall (λ r, length r = n) rows → length (concat rows) = length rows * n.
Proof.
  induction 1 as [|r rows Hr _ IH]; simpl; [done|].
  rewrite length_app, Hr, IH. lia.
Qed.

Lemma same_length_true (rows : list (list Q)) (n : nat) :
  Forall (λ r, length r = n) rows → same_length rows = true.
Proof.
  destruct 1 as [|r rows Hr Hrows]; simpl; [done|].
  apply forallb_forall. intros r' Hin%list_elem_of_In.
  apply bool_decide_eq_true. rewrite Hr.
  by eapply (proj1 (Forall_forall _ _)) in Hrows.
Qed.

Lemma resize_shape (a : ndarray) (sh : list nat) : shape (resize a sh) = sh.
Proof.
  unfold resize. case_decide; [done|].
  by repeat (case_decide || simpl).
Qed.

Lemma resize_well_formed (a : ndarray) (sh : list nat) : well_formed (resize a sh).
Proof.
  unfold well_formed. rewrite resize_shape. unfold resize.
  case_decide as HNa; simpl; [by rewrite length_replicate|].
  set (Na := length (data a)) in *. set (total := size_of sh).
  assert (Hc : ∀ k, length (concat (replicate k (data a))) = k * Na).
  { intros k. rewrite (length_concat_const _ Na); [by rewrite length_replicate|].
    by apply Forall_replicate. }
  pose proof (Nat.div_mod_eq total Na) as Hdm.
  pose proof (Nat.mod_upper_bound total Na HNa) as Hub.
  case_decide as Hextra; simpl.
  - case_decide; [|lia]. rewrite length_take, Hc. nia.
  - case_decide; [lia|]. rewrite Hc. nia.
Qed.

(** The lines of a well-formed 3-D array. *)
Lemma chain_from_iterable_lines (a : ndarray) (s0 s1 s2 : nat) :
  shape a = [s0; s1; s2] → well_formed a →
  length (chain_from_iterable a) = s0 * s1
  ∧ Forall (λ r, length r = s2) (chain_from_iterable a).
Proof.
  unfold well_formed, chain_from_iterable. intros -> Hwf. simpl in Hwf.
  split; [by rewrite length_fmap, length_seq|].
  apply Forall_fmap, Forall_forall. intros r Hr%elem_of_seq. simpl.
  rewrite length_take, length_drop, Hwf.
  pose proof (Nat.mul_le_mono_r (r + 1) (s0 * s1) s2 ltac:(lia)).
  rewrite Nat.mul_1_r, !Nat.mul_assoc. lia.
Qed.

Lemma transform_lines_ok (w : Wavelet) (lines : list (list Q)) (n : nat) :
  swt_keeps_length → n ≠ 0 → n mod 2 = 0 →
  Forall (λ r, length r = n) lines →
  ∃ H L, transform_lines w lines = Return (H, L)
    ∧ length H = length lines ∧ length L = length lines
    ∧ Forall (λ r, length r = n) H ∧ Forall (λ r, length r = n) L.
Proof.
  intros Hswt Hn0 Hn2. unfold transform_lines.
  induction 1 as [|r lines Hr _ IH]; cbn [mapM mbind result_bind mret result_ret].
  - exists [], []. by repeat split.
  - destruct (Hswt w r) as (cA & cD & -> & HA & HD); [by rewrite Hr..|].
    destruct IH as (H & L & IH & ? & ? & ? & ?).
    destruct (mapM (pywt_swt w) lines) as [cs|e]; cbn in IH |- *; [|done].
    injection IH as <- <-.
    exists (cD :: (snd <$> cs)), (cA :: (fst <$> cs)). cbn.
    repeat split; try (constructor; [lia|done]); lia.
Qed.


Lemma _decompose_i_ok (a : ndarray) (w : Wavelet) (s0 s1 s2 : nat) :
  swt_keeps_length → shape a = [s0; s1; s2] → well_formed a →
  s0 ≠ 0 → s1 ≠ 0 → s2 ≠ 0 → s2 mod 2 = 0 →
  returns_pair (_decompose_i a w) [s0; s1; s2].
Proof.
  intros Hswt Hsh Hwf H0 H1 H2 He. unfold _decompose_i, transpose_012.
  rewrite Hsh. cbn [mbind result_bind].
  destruct (chain_from_iterable_lines a s0 s1 s2 Hsh Hwf) as [Hlen Hall].
  destruct (transform_lines_ok w _ s2 Hswt H2 He Hall)
    as (H & L & -> & HlH & HlL & HH & HL).
  cbn [mbind result_bind].
  assert (Hflat : ∀ rows, length rows = length (chain_from_iterable a) →
            Forall (λ r, length r = s2) rows →
            ∃ b, (flat ← hstack rows; reshape (coeff_dtype (dtype a)) flat [s0; s1; s2])
                 = Return b ∧ shape b = [s0; s1; s2] ∧ well_formed b).
  { intros rows Hl Hr. unfold hstack, reshape.
    destruct rows as [|r rows]; [simpl in Hl; nia|].
    cbn [mbind result_bind]. rewrite decide_True.
    - eexists. split; [done|]. split; [done|]. unfold well_formed. simpl.
      rewrite length_app, (length_concat_const rows s2), (Forall_inv Hr);
        [|by eapply Forall_inv_tail].
      simpl in Hl. nia.
    - rewrite (length_concat_const _ s2 Hr), Hl, Hlen. simpl. lia. }
  destruct (Hflat H HlH HH) as (bH & -> & ? & ?).
  destruct (Hflat L HlL HL) as (bL & -> & ? & ?).
  cbn [mbind result_bind]. by exists bH, bL.
Qed.


Lemma asarray_ok (dt : Z) (slices : list ndarray) (sh : list nat) :
  slices ≠ [] → Forall (λ s, shape s = sh ∧ well_formed s) slices →
  ∃ b, asarray dt slices = Return b
       ∧ shape b = length slices :: sh ∧ well_formed b.
Proof.
  intros Hne Hall. unfold asarray. destruct slices as [|s slices]; [done|].
  pose proof (Forall_inv Hall) as [Hs _].
  assert (forallb (λ s', bool_decide (shape s' = shape s)) (s :: slices) = true) as ->.
  { apply forallb_forall. intros s' Hin%list_elem_of_In.
    apply bool_decide_eq_true. rewrite Hs.
    by eapply (proj1 (Forall_forall _ _)) in Hall as [? _]. }
  eexists. split; [done|]. rewrite Hs. split; [done|].
  unfold well_formed. cbn [data shape size_of foldr].
  rewrite (length_bind_const _ _ (size_of sh)); [done|].
  intros s' Hin. eapply (proj1 (Forall_forall _ _)) in Hall as [Hsh Hwf]; [|done].
  unfold well_formed in Hwf. by rewrite Hwf, Hsh.
Qed.

Lemma T_ok (a : ndarray) (rows cols : nat) :
  shape a = [rows; cols] → shape (T a) = [cols; rows] ∧ well_formed (T a).
Proof.
  intros Hsh. unfold T, well_formed. rewrite Hsh. split; [done|]. simpl.
  rewrite (length_bind_const _ _ rows); [rewrite length_seq; lia|].
  intros j _. rewrite (length_bind_const _ _ 1); [rewrite length_seq; lia|done].
Qed.

Lemma _decompose_j_ok (a : ndarray) (w : Wavelet) (s0 s1 s2 : nat) :
  swt_keeps_length → shape a = [s0; s1; s2] → well_formed a →
  s0 ≠ 0 → s1 ≠ 0 → s2 ≠ 0 → s2 mod 2 = 0 →
  returns_pair (_decompose_j a w) [s0; s2; s1].
Proof.
  intros Hswt Hsh Hwf H0 H1 H2 He. unfold _decompose_j, transpose_012.
  rewrite Hsh. cbn [mbind result_bind lookup list_lookup default].
  destruct (chain_from_iterable_lines a s0 s1 s2 Hsh Hwf) as [Hlen Hall].
  destruct (transform_lines_ok w _ s2 Hswt H2 He Hall)
    as (H & L & -> & HlH & HlL & HH & HL).
  cbn [mbind result_bind].
  assert (Hstack : ∀ rows, length rows = length (chain_from_iterable a) →
            Forall (λ r, length r = s2) rows →
            ∃ b, (v ← vstack (coeff_dtype (dtype a)) rows;
                  slices ← split v s0;
                  asarray (coeff_dtype (dtype a)) (T <$> slices))
                 = Return b ∧ shape b = [s0; s2; s1] ∧ well_formed b).
  { intros rows Hl Hr. unfold vstack.
    destruct rows as [|r rows']; [simpl in Hl; nia|].
    rewrite (same_length_true _ s2 Hr), (Forall_inv Hr).
    cbn [mbind result_bind]. unfold split. cbn [shape dtype data].
    rewrite Hl, Hlen. rewrite decide_True
      by (split; [done|]; rewrite Nat.mul_comm; apply Nat.Div0.mod_mul).
    cbn [mbind result_bind].
    rewrite (Nat.mul_comm s0 s1), Nat.div_mul by done.
    match goal with |- context [asarray ?dt ?sl] =>
      destruct (asarray_ok dt sl [s2; s1]) as (b & -> & Hb & Hwfb) end.
    - destruct s0; [done|]. by cbn.
    - apply Forall_fmap, Forall_fmap, Forall_forall. intros blk _.
      by apply T_ok.
    - exists b. split; [done|]. split; [|done].
      by rewrite Hb, !length_fmap, length_seq. }
  unfold id.
  destruct (Hstack H HlH HH) as (bH & -> & ? & ?).
  destruct (Hstack L HlL HL) as (bL & -> & ? & ?).
  cbn [mbind result_bind]. by exists bH, bL.
Qed.


Lemma transpose_120_ok (a : ndarray) (s0 s1 s2 : nat) :
  shape a = [s0; s1; s2] →
  ∃ t, transpose_120 a = Return t ∧ shape t = [s1; s2; s0] ∧ well_formed t.
Proof.
  intros Hsh. unfold transpose_120. rewrite Hsh. eexists. split; [done|].
  split; [done|]. unfold well_formed. cbn [data shape size_of foldr].
  rewrite (length_bind_const _ _ (s2 * (s0 * 1))); [by rewrite length_seq|].
  intros j _. rewrite (length_bind_const _ _ (s0 * 1)); [by rewrite length_seq|].
  intros k _. rewrite (length_bind_const _ _ 1); [by rewrite length_seq|done].
Qed.

Lemma _decompose_k_ok (a : ndarray) (w : Wavelet) (s0 s1 s2 : nat) :
  swt_keeps_length → shape a = [s0; s1; s2] →
  s0 ≠ 0 → s1 ≠ 0 → s2 ≠ 0 → s0 mod 2 = 0 →
  returns_pair (_decompose_k a w) [s0; s1; s2].
Proof.
  intros Hswt Hsh H0 H1 H2 He. unfold _decompose_k.
  destruct (transpose_120_ok a s0 s1 s2 Hsh) as (t & -> & Ht & Hwt).
  cbn [mbind result_bind].
  destruct (chain_from_iterable_lines t s1 s2 s0 Ht Hwt) as [Hlen Hall].
  destruct (transform_lines_ok w _ s0 Hswt H0 He Hall)
    as (H & L & -> & HlH & HlL & HH & HL).
  cbn [mbind result_bind]. rewrite Hsh.
  assert (Hstack : ∀ rows, length rows = length (chain_from_iterable t) →
            Forall (λ r, length r = s0) rows →
            ∃ b, (d ← dstack (coeff_dtype (dtype a)) rows;
                  reshape (coeff_dtype (dtype a)) (data d) [s0; s1; s2])
                 = Return b ∧ shape b = [s0; s1; s2] ∧ well_formed b).
  { intros rows Hl Hr. unfold dstack.
    destruct rows as [|r rows']; [simpl in Hl; nia|].
    rewrite (same_length_true _ s0 Hr), (Forall_inv Hr).
    cbn [mbind result_bind data]. unfold reshape.
    assert (Hd : length (i ← seq 0 s0; row ← r :: rows'; [at_ row i])
                 = size_of [s0; s1; s2]).
    { rewrite (length_bind_const _ _ (length (r :: rows') * 1)).
      - rewrite length_seq, Hl, Hlen. simpl. lia.
      - intros i _. by apply length_bind_const. }
    rewrite decide_True by done. eexists. by repeat split. }
  destruct (Hstack H HlH HH) as (bH & -> & ? & ?).
  destruct (Hstack L HlL HL) as (bL & -> & ? & ?).
  cbn [mbind result_bind]. by exists bH, bL.
Qed.

(** Resized to the input's shape, any array becomes an image on the
    input's grid. *)
Lemma subband_image_ok (inputImage : Image) (sh : list nat) (decImage : ndarray) :
  shape (voxels inputImage) = sh →
  ∃ im, subband_image inputImage sh decImage = Return im
        ∧ on_grid_of im inputImage.
Proof.
  intros <-. unfold subband_image, CopyInformation, GetImageFromArray, GetSize.
  cbn [voxels]. rewrite resize_shape, decide_True by done.
  eexists. split; [done|]. unfold on_grid_of. cbn [voxels Spacing Origin Direction].
  by rewrite resize_shape.
Qed.

End WaveletFacts.

Section WaveletClaims.

Context `{pywt : PyWavelets}.

Local Open Scope nat_scope.

(** C8.  An image whose array does not have exactly three axes makes
    [swt3] raise [ValueError("Expected 3D data array")].  This holds for
    every wavelet library, every wavelet argument and every level count:
    the error comes before the wavelet is looked up and before any line
    is transformed. *)
Theorem swt3_rejects_non_3d (inputImage : Image) (wavelet : WaveletArg)
    (level start_level : Z) :
  ndim (GetArrayFromImage inputImage) ≠ 3 →
  swt3 inputImage wavelet level start_level
  = Raise (ValueError "Expected 3D data array").
Proof. intros Hnd. unfold swt3. by rewrite decide_True. Qed.

(** C4.  For an image whose array has shape [(a, b, c)] with every axis
    even (and not empty), a wavelet the library knows and a 1-D transform
    that keeps the length of even lines, [swt3] with [level = 1] returns
    an approximation and one dictionary whose keys are exactly the seven
    detail names (no "LLL"); the approximation and every detail image
    have an array of shape [(a, b, c)] and the spacing, origin and
    direction of the input. *)
Theorem swt3_level1_subbands (inputImage : Image) (wavelet : WaveletArg)
    (w : Wavelet) (a b c : nat) :
  swt_keeps_length →
  (wavelet = WaveletObject w
   ∨ ∃ name, wavelet = WaveletName name ∧ pywt_Wavelet name = Return w) →
  shape (voxels inputImage) = [a; b; c] →
  a ≠ 0 → b ≠ 0 → c ≠ 0 →
  a mod 2 = 0 → b mod 2 = 0 → c mod 2 = 0 →
  ∃ approximation dec,
    swt3 inputImage wavelet 1 0 = Return (approximation, [dec])
    ∧ dom dec = list_to_set detail_names
    ∧ size dec = 7
    ∧ dec !! "LLL" = None
    ∧ shape (voxels approximation) = [a; b; c]
    ∧ on_grid_of approximation inputImage
    ∧ ∀ name im, dec !! name = Some im →
        shape (voxels im) = [a; b; c] ∧ on_grid_of im inputImage.
Proof.
  intros Hswt Hw Hsh Ha Hb Hc Hea Heb Hec.
  unfold swt3, GetArrayFromImage, ndim. rewrite Hsh.
  rewrite decide_False by (simpl; lia).
  assert (Hadj : (λ dim, if decide (dim mod 2 ≠ 0) then dim + 1 else dim)
                   <$> [a; b; c] = [a; b; c]).
  { cbn [fmap list_fmap]. by rewrite !decide_False by lia. }
  rewrite Hadj.
  assert (Hwav : match wavelet with
                 | WaveletObject w0 => Return w0
                 | WaveletName name => pywt_Wavelet name
                 end = Return w).
  { by destruct Hw as [->|(name & -> & ->)]. }
  rewrite Hwav. change (Z.to_nat 0) with 0. change (Z.to_nat 1) with 1.
  cbn [mbind result_bind repeat_]. unfold record_level.
  pose proof (resize_shape (voxels inputImage) [a; b; c]) as Hs0.
  pose proof (resize_well_formed (voxels inputImage) [a; b; c]) as Hw0.
  destruct (_decompose_i_ok _ w a b c Hswt Hs0 Hw0) as (H & L & -> & HsH & HwH & HsL & HwL);
    [done..|]. cbn [mbind result_bind].
  destruct (_decompose_j_ok H w a b c Hswt HsH HwH) as (HH & HL & -> & HsHH & _ & HsHL & _);
    [done..|]. cbn [mbind result_bind].
  destruct (_decompose_j_ok L w a b c Hswt HsL HwL) as (LH & LL & -> & HsLH & _ & HsLL & _);
    [done..|]. cbn [mbind result_bind].
  destruct (_decompose_k_ok HH w a c b Hswt HsHH) as (HHH & HHL & -> & _); [done..|].
  cbn [mbind result_bind].
  destruct (_decompose_k_ok HL w a c b Hswt HsHL) as (HLH & HLL & -> & _); [done..|].
  cbn [mbind result_bind].
  destruct (_decompose_k_ok LH w a c b Hswt HsLH) as (LHH & LHL & -> & _); [done..|].
  cbn [mbind result_bind].
  destruct (_decompose_k_ok LL w a c b Hswt HsLL) as (LLH & LLL & -> & _); [done..|].
  cbn [mbind result_bind mapM mret result_ret].
  destruct (subband_image_ok inputImage [a; b; c] HHH Hsh) as (i1 & -> & G1).
  destruct (subband_image_ok inputImage [a; b; c] HHL Hsh) as (i2 & -> & G2).
  destruct (subband_image_ok inputImage [a; b; c] HLH Hsh) as (i3 & -> & G3).
  destruct (subband_image_ok inputImage [a; b; c] HLL Hsh) as (i4 & -> & G4).
  destruct (subband_image_ok inputImage [a; b; c] LHH Hsh) as (i5 & -> & G5).
  destruct (subband_image_ok inputImage [a; b; c] LHL Hsh) as (i6 & -> & G6).
  destruct (subband_image_ok inputImage [a; b; c] LLH Hsh) as (i7 & -> & G7).
  unfold mret, result_ret. cbn [mbind result_bind app repeat_].
  destruct (subband_image_ok inputImage [a; b; c] LLL Hsh) as (ap & Hap & Gap).
  unfold subband_image in Hap. rewrite Hap. cbn [mbind result_bind].
  eexists _, _. split; [reflexivity|].
  assert (Hgrid : ∀ im, on_grid_of im inputImage →
            shape (voxels im) = [a; b; c] ∧ on_grid_of im inputImage).
  { intros im G. split; [|done]. destruct G as [-> _]. done. }
  split_and!.
  - by rewrite dom_list_to_map_L.
  - rewrite <- size_dom, dom_list_to_map_L. by vm_compute.
  - apply not_elem_of_dom. rewrite dom_list_to_map_L. by vm_compute.
  - by apply Hgrid.
  - done.
  - intros name im Hl%elem_of_list_to_map_2.
    repeat (apply elem_of_cons in Hl as [Hl|Hl]; [injection Hl as -> ->; by apply Hgrid|]).
    by apply elem_of_nil in Hl.
Qed.

End WaveletClaims.

(** The Haar pair of the reference library keeps the length of even
    lines. *)
Lemma haar_keeps_length : swt_keeps_length (pywt := Reference.wavelets).
Proof.
  intros w line Hne Heven. cbn [pywt_swt Reference.wavelets].
  unfold Reference.haar. rewrite decide_True by done.
  eexists _, _. split; [reflexivity|].
  by rewrite !length_fmap, !length_seq.
Qed.

Section WaveletExamples.

Import Reference.

Lemma swt3_rejects_non_3d_witness :
  swt3 (volume [4; 4]%nat (replicate 16 0)) (WaveletName "no such wavelet")
       1 0
  = Raise (ValueError "Expected 3D data array").
Proof.
  apply (swt3_rejects_non_3d (volume [4; 4]%nat (replicate 16 0))).
  by vm_compute.
Defined.

Lemma swt3_level1_subbands_witness :
  ∃ approximation dec,
    swt3 ramp242 (WaveletName "haar") 1 0 = Return (approximation, [dec])
    ∧ dom dec = list_to_set detail_names
    ∧ size dec = 7%nat
    ∧ dec !! "LLL" = None
    ∧ shape (voxels approximation) = [2; 4; 2]%nat
    ∧ on_grid_of approximation ramp242
    ∧ ∀ name im, dec !! name = Some im →
        shape (voxels im) = [2; 4; 2]%nat ∧ on_grid_of im ramp242.
Proof.
  apply (swt3_level1_subbands ramp242 (WaveletName "haar")
           (tt : @Wavelet wavelets) 2 4 2).
  - apply haar_keeps_length.
  - right. by exists "haar".
  - reflexivity.
  - lia.
  - lia.
  - lia.
  - reflexivity.
  - reflexivity.
  - reflexivity.
Defined.

End WaveletExamples.

(** * Further properties *)

(** ** generateAngles, continued *)

Lemma filter_all {A} (P : A → Prop) `{!∀ x, Decision (P x)} (l : list A) :
  Forall P l → filter P l = l.
Proof.
  induction 1 as [|x l Hx _ IH]; [done|].
  by rewrite filter_cons_True, IH.
Qed.

Section AnglesEnumeration.
Import Angles.

Lemma length_xrange (lo hi : Z) : length (xrange lo hi) = Z.to_nat (hi - lo).
Proof. unfold xrange. apply length_seqZ. Qed.

Lemma length_enumerate (d : Z) :
  0 ≤ d →
  length (enumerate d) = Z.to_nat (d * ((2 * d + 1) * (2 * d + 1) + (2 * d + 1) + 1)).
Proof.
  intros Hd. unfold enumerate.
  rewrite (length_bind_const _ _
             (S (Z.to_nat (2 * d + 1) * S (Z.to_nat (2 * d + 1) * 1)))).
  - rewrite length_xrange. nia.
  - intros z _. cbn [length]. f_equal.
    rewrite (length_bind_const _ _ (S (Z.to_nat (2 * d + 1) * 1))).
    + rewrite length_xrange. f_equal. lia.
    + intros y _. cbn [length]. f_equal.
      rewrite (length_bind_const _ _ 1); [|done].
      rewrite length_xrange. f_equal. lia.
Qed.

(** The closed form of the enumeration. *)
Lemma elem_of_enumerate_closed (d : Z) (v : angle) :
  v ∈ enumerate d ↔
  0 < layer v ∧ Z.abs v.1.1 ≤ d ∧ Z.abs v.1.2 ≤ d ∧ Z.abs v.2 ≤ d.
Proof.
  rewrite elem_of_enumerate. destruct v as [[a b] c]. unfold layer. simpl. split.
  - intros (z & Hz & [?|(y & Hy & [?|(x & Hx & ?)])]); simplify_eq;
      repeat case_decide; lia.
  - intros (Hl & Ha & Hb & Hc).
    destruct (decide (a = 0)) as [->|Ha0].
    + destruct (decide (b = 0)) as [->|Hb0].
      * exists c. split; [lia|by left].
      * exists b. split; [lia|]. right. exists c. split; [lia|by left].
    + exists a. split; [lia|]. right. exists b. split; [lia|]. right.
      exists c. split; [lia|done].
Qed.

Lemma layer_opp (v : angle) :
  layer (- v.1.1, - v.1.2, - v.2) = - layer v.
Proof. destruct v as [[a b] c]. unfold layer. simpl. repeat case_decide; lia. Qed.

(** X1.  An offset is returned exactly when its first non-zero component
    is positive, no component exceeds [maxDistance] in absolute value and
    every component is smaller in absolute value than the size on its
    axis. *)
Theorem generateAngles_characterised (s0 s1 s2 d : Z) (v : angle) :
  1 ≤ d →
  v ∈ generateAngles (s0, s1, s2) d ↔
  0 < layer v
  ∧ Z.abs v.1.1 ≤ d ∧ Z.abs v.1.2 ≤ d ∧ Z.abs v.2 ≤ d
  ∧ Z.abs v.1.1 < s0 ∧ Z.abs v.1.2 < s1 ∧ Z.abs v.2 < s2.
Proof.
  intros _. rewrite elem_of_generateAngles, elem_of_enumerate_closed.
  destruct v as [[a b] c]. unfold min_margin. simpl. lia.
Qed.

(** X2.  Whatever the size, an offset and its opposite are never both
    returned. *)
Theorem generateAngles_half_space (s0 s1 s2 d : Z) (v : angle) :
  1 ≤ d →
  v ∈ generateAngles (s0, s1, s2) d →
  (- v.1.1, - v.1.2, - v.2) ∉ generateAngles (s0, s1, s2) d.
Proof.
  intros Hd [Hl _]%generateAngles_characterised
            [Hl' _]%generateAngles_characterised; [|done..].
  rewrite layer_opp in Hl'. lia.
Qed.

(** X3.  When every size exceeds [maxDistance], each non-zero offset with
    components within [maxDistance] is returned itself or through its
    opposite. *)
Theorem generateAngles_one_of_each_pair (s0 s1 s2 d : Z) (v : angle) :
  1 ≤ d → d < s0 → d < s1 → d < s2 →
  v ≠ (0, 0, 0) →
  Z.abs v.1.1 ≤ d → Z.abs v.1.2 ≤ d → Z.abs v.2 ≤ d →
  v ∈ generateAngles (s0, s1, s2) d
  ∨ (- v.1.1, - v.1.2, - v.2) ∈ generateAngles (s0, s1, s2) d.
Proof.
  intros Hd H0 H1 H2 Hv Ha Hb Hc.
  rewrite !generateAngles_characterised by done. rewrite layer_opp.
  destruct v as [[a b] c]. cbn [fst snd] in *.
  assert (layer (a, b, c) ≠ 0).
  { unfold layer. repeat case_decide; try lia. intros ->. by subst. }
  lia.
Qed.

(** X4.  When every size exceeds [maxDistance], the number of offsets is
    [((2 d + 1)^3 - 1) / 2]: 13 for distance 1, 62 for distance 2, as the
    docstring says. *)
Theorem generateAngles_count (s0 s1 s2 d : Z) :
  1 ≤ d → d < s0 → d < s1 → d < s2 →
  Z.of_nat (length (generateAngles (s0, s1, s2) d))
  = ((2 * d + 1) ^ 3 - 1) / 2.
Proof.
  intros Hd H0 H1 H2.
  assert (Hall : generateAngles (s0, s1, s2) d = enumerate d).
  { unfold generateAngles. apply filter_all, Forall_forall.
    intros v Hv. apply elem_of_enumerate_closed in Hv.
    destruct v as [[a b] c]. unfold impossible, min_margin. simpl in *.
    apply Z.leb_gt. lia. }
  rewrite Hall, length_enumerate by lia.
  rewrite Z2Nat.id by nia.
  replace ((2 * d + 1) ^ 3 - 1) with (d * ((2 * d + 1) * (2 * d + 1) + (2 * d + 1) + 1) * 2) by ring.
  by rewrite Z.div_mul.
Qed.
End AnglesEnumeration.

(** ** resampleImage, continued *)

(** X5.  On the resampling path image and mask are resampled with one
    spacing, direction, size and origin; the image with the requested
    interpolator and its own pixel type, the mask with nearest neighbour
    and its own pixel type. *)
Theorem resampleImage_common_grid `{sitk : SimpleITK}
    (imageNode maskNode : Image) (rps : list Q) (interpolator : PyObject)
    (label padDistance k : Z) :
  Numpy.array_equal (Spacing imageNode) rps = false →
  resolveInterpolator interpolator = PyInt k →
  ∃ spacing size origin,
    resampleImage (Some imageNode) (Some maskNode) rps interpolator label
                  padDistance
    = Return (RetTuple2
        (ResampleImageFilter_Execute
           (mk_rif spacing (Direction imageNode) size origin
                   (PixelID imageNode) k) imageNode,
         ResampleImageFilter_Execute
           (mk_rif spacing (Direction imageNode) size origin
                   (PixelID maskNode) sitkNearestNeighbor) maskNode)).
Proof.
  intros Hne Hk. unfold resampleImage. rewrite Hne, Hk.
  destruct (resampledBounds _ _ _ _) as [lo hi].
  cbn [mbind result_bind SetInterpolator SetOutputPixelType
       OutputSpacing OutputDirection Size OutputOrigin OutputPixelType
       Interpolator].
  by eexists _, _, _.
Qed.

(** One axis of the new grid, in continuous index units of the source:
    new voxel [i] is centred at [c + i * (e / o)] and has width [e / o]. *)
Lemma grid_covers_axis (n l z pad : Z) (o e : Q) :
  (0 < o)%Q → (0 < e)%Q → 0 ≤ l → 1 ≤ z → l + z ≤ n → 0 ≤ pad →
  let r := (o / e)%Q in
  let c := ((1 # 2) * (e - o) / o + inject_Z (Spec.newLower l r pad) / r)%Q in
  (c - (1 # 2) * (e / o) <= inject_Z l - (1 # 2))%Q
  ∧ (inject_Z (l + z - 1)
     <= c + (inject_Z (Spec.newSize n l z r pad) - (1 # 2)) * (e / o))%Q.
Proof.
  intros Ho He Hl Hz Hlz Hp r c.
  assert (Hr : (0 < r)%Q) by (apply Qlt_shift_div_l; lra).
  set (q := (e / o)%Q).
  assert (Hq : (0 < q)%Q) by (apply Qlt_shift_div_l; lra).
  assert (Hrq : (r * q == 1)%Q) by (unfold r, q; field; split; lra).
  set (L := Spec.newLower l r pad) in *.
  set (U := Spec.newUpper n l z r pad).
  assert (Hc : (c == (inject_Z L) * q + (1 # 2) * q - (1 # 2))%Q).
  { unfold c, q, r. field. split; lra. }
  assert (Hsize : (inject_Z (Spec.newSize n l z r pad)
                   == inject_Z U - inject_Z L + 1)%Q).
  { unfold Spec.newSize. fold L U.
    rewrite inject_Z_plus, <- Z.add_opp_r, inject_Z_plus, inject_Z_opp. ring. }
  clearbody c q. clearbody r.
  assert (Hl' : (0 <= inject_Z l)%Q) by (rewrite <- (Zle_Qle 0); lia).
  assert (Hz' : (1 <= inject_Z z)%Q) by (rewrite <- (Zle_Qle 1); lia).
  assert (Hn' : (inject_Z l + inject_Z z <= inject_Z n)%Q)
    by (rewrite <- inject_Z_plus, <- Zle_Qle; lia).
  assert (Hp' : (0 <= inject_Z pad)%Q) by (rewrite <- (Zle_Qle 0); lia).
  (* the clamped bounds against the box, in new index units *)
  assert (HL : (inject_Z L <= inject_Z l * r)%Q).
  { unfold L, Spec.newLower.
    destruct (Z.max_spec 0 (Qfloor ((inject_Z l - (1 # 2)) * r - inject_Z pad)))
      as [[_ ->]|[_ ->]].
    - eapply Qle_trans; [apply Qfloor_le|]. clear - Hr Hp' Hl'. nra.
    - apply Qmult_le_0_compat; [done|by apply Qlt_le_weak]. }
  assert (HU : ((inject_Z l + inject_Z z - (1 # 2)) * r <= inject_Z U + 1)%Q).
  { unfold U, Spec.newUpper.
    destruct (Z.min_spec (Qceiling (inject_Z n * r) - 1)
                (Qceiling ((inject_Z (l + z) - (1 # 2)) * r + inject_Z pad)))
      as [[_ ->]|[_ ->]].
    - rewrite <- Z.add_opp_r, inject_Z_plus, inject_Z_opp.
      change (inject_Z 1) with 1%Q.
      pose proof (Qle_ceiling (inject_Z n * r)) as HC.
      assert (0 <= (inject_Z n - inject_Z l - inject_Z z) * r)%Q
        by (apply Qmult_le_0_compat; lra).
      clear - HC Hr H. lra.
    - pose proof (Qle_ceiling ((inject_Z (l + z) - (1 # 2)) * r + inject_Z pad)) as HC.
      rewrite <- inject_Z_plus. clear - HC Hp'. lra. }
  split.
  - rewrite Hc. nra.
  - rewrite Hc, Hsize.
    rewrite <- Z.add_opp_r, !inject_Z_plus, inject_Z_opp.
    change (inject_Z 1) with 1%Q.
    nra.
Qed.

(** X6.  The origin handed to the filter is the physical point of a
    continuous index [c].  On every axis the new grid starts at or before
    the lower face of the bounding box, and reaches at least the centre
    of the last voxel of the box (positive spacings, box inside the
    image, padding not negative). *)
Theorem resampleImage_grid_covers_box `{sitk : SimpleITK}
    (imageNode maskNode : Image) (rps : list Q) (interpolator : PyObject)
    (label padDistance k : Z)
    (n0 n1 n2 l0 l1 l2 z0 z1 z2 : Z) (o0 o1 o2 t0 t1 t2 : Q) :
  Numpy.array_equal (Spacing imageNode) rps = false →
  Spacing imageNode = [o0; o1; o2] →
  rps = [t0; t1; t2] →
  GetSize imageNode = [n0; n1; n2] →
  LabelShapeStatistics_GetBoundingBox maskNode label
    = [l0; l1; l2; z0; z1; z2] →
  resolveInterpolator interpolator = PyInt k →
  (0 < o0)%Q ∧ (0 < o1)%Q ∧ (0 < o2)%Q →
  (0 < t0)%Q ∧ (0 < t1)%Q ∧ (0 < t2)%Q →
  0 ≤ l0 ∧ 1 ≤ z0 ∧ l0 + z0 ≤ n0 →
  0 ≤ l1 ∧ 1 ≤ z1 ∧ l1 + z1 ≤ n1 →
  0 ≤ l2 ∧ 1 ≤ z2 ∧ l2 + z2 ≤ n2 →
  0 ≤ padDistance →
  ∃ e0 e1 e2 m0 m1 m2 c0 c1 c2,
    resampleImage (Some imageNode) (Some maskNode) rps interpolator label
                  padDistance
    = Return (RetTuple2
        (ResampleImageFilter_Execute
           (mk_rif [e0; e1; e2] (Direction imageNode) [m0; m1; m2]
              (TransformContinuousIndexToPhysicalPoint imageNode [c0; c1; c2])
              (PixelID imageNode) k) imageNode,
         ResampleImageFilter_Execute
           (mk_rif [e0; e1; e2] (Direction imageNode) [m0; m1; m2]
              (TransformContinuousIndexToPhysicalPoint imageNode [c0; c1; c2])
              (PixelID maskNode) sitkNearestNeighbor) maskNode))
    ∧ Forall2 (λ '(c, e, o, m) '(l, z),
         (c - (1 # 2) * (e / o) <= inject_Z l - (1 # 2))%Q
         ∧ (inject_Z (l + z - 1) <= c + (inject_Z m - (1 # 2)) * (e / o))%Q)
        [(c0, e0, o0, m0); (c1, e1, o1, m1); (c2, e2, o2, m2)]
        [(l0, z0); (l1, z1); (l2, z2)].
Proof.
  intros Hne Ho Ht Hn Hbb Hk (Ho0 & Ho1 & Ho2) (Ht0 & Ht1 & Ht2)
    (? & ? & ?) (? & ? & ?) (? & ? & ?) Hpad.
  assert (He : ∀ z t o, (0 < t)%Q → (0 < o)%Q → (0 < Spec.targetSpacing z t o)%Q).
  { intros z t o ? ?. unfold Spec.targetSpacing. by destruct (z =? 1). }
  eexists _, _, _, _, _, _, _, _, _. split.
  - unfold resampleImage. rewrite Hne, Hbb, Hn, Hk. subst rps. rewrite Ho.
    rewrite effectiveSpacing_axes. unfold Numpy.div at 1. cbn [zip_with].
    rewrite resampledBounds_axes.
    cbn [fmap list_fmap Numpy.sub Numpy.add Numpy.div Numpy.s_mul Numpy.add_s
         Numpy.astype_int zip_with mbind result_bind
         SetOutputPixelType SetInterpolator OutputSpacing
         OutputDirection Size OutputOrigin OutputPixelType Interpolator].
    rewrite !trunc_size. reflexivity.
  - repeat (apply Forall2_cons; split;
            [apply grid_covers_axis; auto|]).
    apply Forall2_nil_2.
Qed.

(** ** swt3, continued *)

Section WaveletLevels.
Context `{pywt : PyWavelets}.
Import Arrays.
Local Open Scope nat_scope.

Lemma resize_shrink (b : ndarray) (sh : list nat) :
  size_of sh ≠ 0 → size_of sh ≤ length (data b) →
  data (resize b sh) = take (size_of sh) (data b).
Proof.
  intros HT Hle. unfold resize. rewrite decide_False by lia.
  destruct (decide (size_of sh = length (data b))) as [Heq|Hne].
  - rewrite Heq, Nat.Div0.mod_same, Nat.div_same by lia.
    rewrite decide_False by lia. cbn -[decide]. rewrite decide_False by lia. simpl.
    by rewrite app_nil_r, take_ge.
  - rewrite Nat.mod_small, Nat.div_small by lia.
    rewrite decide_True by lia. cbn -[decide Nat.sub]. rewrite decide_True by lia.
    cbn [data]. rewrite app_nil_r. f_equal. lia.
Qed.

Lemma take_concat_replicate {A} (l : list A) (n : nat) :
  n ≠ 0 → take (length l) (concat (replicate n l)) = l.
Proof.
  destruct n; [done|]. intros _. simpl. by rewrite take_app_length.
Qed.

Lemma resize_grow_prefix (a : ndarray) (sh : list nat) :
  length (data a) ≠ 0 → length (data a) ≤ size_of sh →
  take (length (data a)) (data (resize a sh)) = data a.
Proof.
  intros HN Hle. unfold resize. rewrite decide_False by done.
  set (Na := length (data a)). set (T := size_of sh) in *.
  pose proof (Nat.div_mod_eq T Na) as Hdm.
  pose proof (Nat.mod_upper_bound T Na HN) as Hub.
  assert (Hc : ∀ k, length (concat (replicate k (data a))) = k * Na).
  { intros k. rewrite (length_concat_const _ Na); [by rewrite length_replicate|].
    by apply Forall_replicate. }
  assert (Hq : T / Na ≠ 0) by (intros Hq; rewrite Hq in Hdm; lia).
  case_decide as Hextra; cbn -[decide Nat.sub Nat.div Nat.modulo].
  - rewrite decide_True by lia. cbn [data].
    rewrite take_take, Hc. rewrite Nat.min_l by nia.
    apply take_concat_replicate. lia.
  - rewrite decide_False by lia. cbn [data]. by apply take_concat_replicate.
Qed.

Lemma resize_dtype (a : ndarray) (sh : list nat) : dtype (resize a sh) = dtype a.
Proof. unfold resize. by repeat (case_decide || simpl). Qed.

Lemma ndarray_eq (x y : ndarray) :
  dtype x = dtype y → shape x = shape y → data x = data y → x = y.
Proof. destruct x, y. cbn. by intros -> -> ->. Qed.

(** Padding to an even shape and cutting back gives the array back. *)
Lemma resize_pad_crop (a : ndarray) (sh : list nat) :
  well_formed a → size_of (shape a) ≠ 0 → size_of (shape a) ≤ size_of sh →
  resize (resize a sh) (shape a) = a.
Proof.
  intros Hwf Hne Hle. unfold well_formed in Hwf. apply ndarray_eq.
  - by rewrite !resize_dtype.
  - by rewrite resize_shape.
  - rewrite resize_shrink;
      [| done | by rewrite (resize_well_formed a sh), resize_shape].
    rewrite <- Hwf. apply resize_grow_prefix; lia.
Qed.

Lemma size_of_pad_even (sh : list nat) : size_of sh ≤ size_of (pad_even sh).
Proof.
  induction sh as [|d sh IH]; [done|]. cbn [pad_even fmap list_fmap size_of foldr].
  fold (pad_even sh). fold (size_of sh) (size_of (pad_even sh)).
  case_decide; nia.
Qed.


Lemma pad_even_3 (a b c : nat) :
  a ≠ 0 → b ≠ 0 → c ≠ 0 →
  ∃ a' b' c', pad_even [a; b; c] = [a'; b'; c']
    ∧ (a' ≠ 0 ∧ a' mod 2 = 0) ∧ (b' ≠ 0 ∧ b' mod 2 = 0)
    ∧ (c' ≠ 0 ∧ c' mod 2 = 0).
Proof.
  intros Ha Hb Hc. eexists _, _, _. split; [reflexivity|].
  assert (He : ∀ d, d ≠ 0 →
            let d' := if decide (d mod 2 ≠ 0) then d + 1 else d in
            d' ≠ 0 ∧ d' mod 2 = 0).
  { intros d Hd d'. subst d'. case_decide as Hm.
    - split; [lia|]. pose proof (Nat.mod_upper_bound d 2 ltac:(done)).
      rewrite Nat.Div0.add_mod. by replace (d mod 2) with 1 by lia.
    - split; [done|]. by destruct (decide (d mod 2 = 0)). }
  split_and!; by apply He.
Qed.

Section Levels.

Context (inputImage : Image) (w : Wavelet) (s0 s1 s2 : nat).
Context (Hswt : swt_keeps_length).
Context (H0 : s0 ≠ 0 ∧ s0 mod 2 = 0) (H1 : s1 ≠ 0 ∧ s1 mod 2 = 0)
        (H2 : s2 ≠ 0 ∧ s2 mod 2 = 0).

Lemma skip_level_ok (d : ndarray) :
  level_state s0 s1 s2 d →
  ∃ d', skip_level w d = Return d' ∧ level_state s0 s1 s2 d'.
Proof.
  destruct H0 as [Hn0 He0], H1 as [Hn1 He1], H2 as [Hn2 He2].
  intros [Hwf Hsh]. unfold skip_level.
  assert (Hgo : ∀ t1 t2, t1 ≠ 0 → t1 mod 2 = 0 → t2 ≠ 0 → t2 mod 2 = 0 →
            shape d = [s0; t1; t2] →
            ∃ d', (_decompose_i d w ≫= λ '(H, L),
                     _decompose_j L w ≫= λ '(LH, LL),
                       _decompose_k LL w ≫= λ '(LLH, LLL), Return LLL)
                  = Return d' ∧ well_formed d' ∧ shape d' = [s0; t2; t1]).
  { intros t1 t2 Ht1 Hte1 Ht2 Hte2 Hs.
    destruct (_decompose_i_ok d w s0 t1 t2 Hswt Hs Hwf) as (H & L & -> & _ & _ & HsL & HwL);
      [done..|]. cbn [mbind result_bind].
    destruct (_decompose_j_ok L w s0 t1 t2 Hswt HsL HwL) as (LH & LL & -> & _ & _ & HsLL & _);
      [done..|]. cbn [mbind result_bind].
    destruct (_decompose_k_ok LL w s0 t2 t1 Hswt HsLL) as (LLH & LLL & -> & _ & _ & ? & ?);
      [done..|]. cbn [mbind result_bind]. by exists LLL. }
  destruct Hsh as [Hs|Hs].
  - destruct (Hgo s1 s2) as (d' & -> & ? & ?); [done..|].
    exists d'. split; [done|]. split; [done|by right].
  - destruct (Hgo s2 s1) as (d' & -> & ? & ?); [done..|].
    exists d'. split; [done|]. split; [done|by left].
Qed.

Lemma record_level_ok (d : ndarray) (ret : list (gmap string Image)) :
  level_state s0 s1 s2 d →
  ∃ d' dec, record_level inputImage (shape (voxels inputImage)) w (d, ret)
            = Return (d', ret ++ [dec])
    ∧ level_state s0 s1 s2 d' ∧ detail_dict inputImage dec.
Proof.
  destruct H0 as [Hn0 He0], H1 as [Hn1 He1], H2 as [Hn2 He2].
  intros [Hwf Hsh]. unfold record_level.
  assert (Hgo : ∀ t1 t2, t1 ≠ 0 → t1 mod 2 = 0 → t2 ≠ 0 → t2 mod 2 = 0 →
            shape d = [s0; t1; t2] →
            ∃ HHH HHL HLH HLL LHH LHL LLH LLL,
              well_formed LLL ∧ shape LLL = [s0; t2; t1] ∧
              ∀ (K : _ → result (ndarray * list (gmap string Image))),
              (_decompose_i d w ≫= λ '(H, L),
               _decompose_j H w ≫= λ '(HH, HL),
               _decompose_j L w ≫= λ '(LH, LL),
               _decompose_k HH w ≫= λ '(HHH, HHL),
               _decompose_k HL w ≫= λ '(HLH, HLL),
               _decompose_k LH w ≫= λ '(LHH, LHL),
               _decompose_k LL w ≫= λ '(LLH, LLL),
                 K (HHH, HHL, HLH, HLL, LHH, LHL, LLH, LLL))
              = K (HHH, HHL, HLH, HLL, LHH, LHL, LLH, LLL)).
  { intros t1 t2 Ht1 Hte1 Ht2 Hte2 Hs.
    destruct (_decompose_i_ok d w s0 t1 t2 Hswt Hs Hwf)
      as (H & L & HeI & HsH & HwH & HsL & HwL); [done..|].
    destruct (_decompose_j_ok H w s0 t1 t2 Hswt HsH HwH)
      as (HH & HL & HeJ1 & HsHH & _ & HsHL & _); [done..|].
    destruct (_decompose_j_ok L w s0 t1 t2 Hswt HsL HwL)
      as (LH & LL & HeJ2 & HsLH & _ & HsLL & _); [done..|].
    destruct (_decompose_k_ok HH w s0 t2 t1 Hswt HsHH) as (HHH & HHL & HeK1 & _); [done..|].
    destruct (_decompose_k_ok HL w s0 t2 t1 Hswt HsHL) as (HLH & HLL & HeK2 & _); [done..|].
    destruct (_decompose_k_ok LH w s0 t2 t1 Hswt HsLH) as (LHH & LHL & HeK3 & _); [done..|].
    destruct (_decompose_k_ok LL w s0 t2 t1 Hswt HsLL)
      as (LLH & LLL & HeK4 & _ & _ & ? & ?); [done..|].
    exists HHH, HHL, HLH, HLL, LHH, LHL, LLH, LLL. split; [done|]. split; [done|].
    intros K. rewrite HeI. cbn [mbind result_bind].
    rewrite HeJ1. cbn [mbind result_bind]. rewrite HeJ2. cbn [mbind result_bind].
    rewrite HeK1. cbn [mbind result_bind]. rewrite HeK2. cbn [mbind result_bind].
    rewrite HeK3. cbn [mbind result_bind]. rewrite HeK4. cbn [mbind result_bind].
    done. }
  assert (Hst : ∃ t1 t2, (t1 ≠ 0 ∧ t1 mod 2 = 0) ∧ (t2 ≠ 0 ∧ t2 mod 2 = 0)
                  ∧ shape d = [s0; t1; t2]
                  ∧ ∀ d', shape d' = [s0; t2; t1] → well_formed d' →
                          level_state s0 s1 s2 d').
  { destruct Hsh as [Hs|Hs].
    - exists s1, s2. split_and!; try done. intros d' ? ?. split; [done|by right].
    - exists s2, s1. split_and!; try done. intros d' ? ?. split; [done|by left]. }
  destruct Hst as (t1 & t2 & [? ?] & [? ?] & Hs & Hback).
  destruct (Hgo t1 t2) as (HHH & HHL & HLH & HLL & LHH & LHL & LLH & LLL & HwLLL & HsLLL & Hrun);
    [done..|].
  rewrite (Hrun (λ '(HHH, HHL, HLH, HLL, LHH, LHL, LLH, LLL), _)).
  cbn [mapM mbind result_bind].
  destruct (subband_image_ok inputImage _ HHH eq_refl) as (i1 & -> & G1).
  destruct (subband_image_ok inputImage _ HHL eq_refl) as (i2 & -> & G2).
  destruct (subband_image_ok inputImage _ HLH eq_refl) as (i3 & -> & G3).
  destruct (subband_image_ok inputImage _ HLL eq_refl) as (i4 & -> & G4).
  destruct (subband_image_ok inputImage _ LHH eq_refl) as (i5 & -> & G5).
  destruct (subband_image_ok inputImage _ LHL eq_refl) as (i6 & -> & G6).
  destruct (subband_image_ok inputImage _ LLH eq_refl) as (i7 & -> & G7).
  unfold mret, result_ret. cbn [mbind result_bind].
  eexists _, _. split; [reflexivity|]. split; [by apply Hback|].
  split; [by rewrite dom_list_to_map_L|].
  intros name im Hl%elem_of_list_to_map_2.
  repeat (apply elem_of_cons in Hl as [Hl|Hl]; [by injection Hl as -> ->|]).
  by apply elem_of_nil in Hl.
Qed.

Lemma repeat_skip_level_ok (n : nat) (d : ndarray) :
  level_state s0 s1 s2 d →
  ∃ d', repeat_ n (skip_level w) d = Return d' ∧ level_state s0 s1 s2 d'.
Proof.
  revert d. induction n as [|n IH]; intros d Hd; cbn [repeat_].
  - by exists d.
  - destruct (skip_level_ok d Hd) as (d1 & -> & Hd1). cbn [mbind result_bind].
    by apply IH.
Qed.

Lemma repeat_record_level_ok (n : nat) (d : ndarray)
    (ret : list (gmap string Image)) :
  level_state s0 s1 s2 d → Forall (detail_dict inputImage) ret →
  ∃ d' ret',
    repeat_ n (record_level inputImage (shape (voxels inputImage)) w) (d, ret)
    = Return (d', ret')
    ∧ level_state s0 s1 s2 d' ∧ length ret' = length ret + n
    ∧ Forall (detail_dict inputImage) ret'.
Proof.
  revert d ret. induction n as [|n IH]; intros d ret Hd Hret; cbn [repeat_].
  - exists d, ret. by rewrite Nat.add_0_r.
  - destruct (record_level_ok d ret Hd) as (d1 & dec & -> & Hd1 & Hdec).
    cbn [mbind result_bind].
    destruct (IH d1 (ret ++ [dec]) Hd1) as (d' & ret' & -> & ? & Hlen & ?).
    { apply Forall_app. split; [done|]. by apply Forall_singleton. }
    exists d', ret'. split_and!; try done.
    rewrite Hlen, length_app. simpl. lia.
Qed.

End Levels.


(** X7.  For every non-empty 3-D image, odd axes included, every level
    count and every start level, [swt3] returns an approximation on the
    grid of the input and as many dictionaries as levels, each with the
    seven detail names and images on the grid of the input. *)
Theorem swt3_every_level (inputImage : Image) (wavelet : WaveletArg)
    (w : Wavelet) (level start_level : Z) (a b c : nat) :
  swt_keeps_length →
  (wavelet = WaveletObject w
   ∨ ∃ name, wavelet = WaveletName name ∧ pywt_Wavelet name = Return w) →
  shape (voxels inputImage) = [a; b; c] →
  a ≠ 0 → b ≠ 0 → c ≠ 0 →
  ∃ approximation ret,
    swt3 inputImage wavelet level start_level = Return (approximation, ret)
    ∧ length ret = Z.to_nat level
    ∧ on_grid_of approximation inputImage
    ∧ Forall (detail_dict inputImage) ret.
Proof.
  intros Hswt Hw Hsh Ha Hb Hc.
  unfold swt3, GetArrayFromImage, ndim.
  rewrite decide_False by (rewrite Hsh; simpl; lia).
  assert (Hwav : match wavelet with
                 | WaveletObject w0 => Return w0
                 | WaveletName name => pywt_Wavelet name
                 end = Return w).
  { by destruct Hw as [->|(name & -> & ->)]. }
  rewrite Hwav. cbn [mbind result_bind]. fold (pad_even (shape (voxels inputImage))).
  destruct (pad_even_3 a b c Ha Hb Hc) as (a' & b' & c' & Hpad & Ha' & Hb' & Hc').
  assert (Hst : level_state a' b' c'
                  (resize (voxels inputImage) (pad_even (shape (voxels inputImage))))).
  { split; [apply resize_well_formed|]. left. by rewrite resize_shape, Hsh. }
  destruct (repeat_skip_level_ok w a' b' c' Hswt Ha' Hb' Hc' (Z.to_nat start_level) _ Hst)
    as (d1 & -> & Hd1). cbn [mbind result_bind].
  destruct (repeat_record_level_ok inputImage w a' b' c' Hswt Ha' Hb' Hc'
              (Z.to_nat level) d1 [] Hd1 (Forall_nil_2 _))
    as (d2 & ret & -> & _ & Hlen & Hret). cbn [mbind result_bind].
  destruct (subband_image_ok inputImage _ d2 eq_refl) as (ap & Hap & Gap).
  unfold subband_image in Hap. rewrite Hap. cbn [mbind result_bind].
  by exists ap, ret.
Qed.

(** X8.  Without any level the approximation is the input array itself
    with the input's spacing, origin and direction: padding to an even
    shape and cutting back loses nothing. *)
Theorem swt3_no_level_returns_input (inputImage : Image) (wavelet : WaveletArg)
    (w : Wavelet) (level start_level : Z) :
  (wavelet = WaveletObject w
   ∨ ∃ name, wavelet = WaveletName name ∧ pywt_Wavelet name = Return w) →
  ndim (voxels inputImage) = 3 →
  well_formed (voxels inputImage) →
  size_of (shape (voxels inputImage)) ≠ 0 →
  (level ≤ 0)%Z → (start_level ≤ 0)%Z →
  swt3 inputImage wavelet level start_level
  = Return (mk_Image (dtype (voxels inputImage)) (Spacing inputImage)
              (Origin inputImage) (Direction inputImage) (voxels inputImage),
            []).
Proof.
  intros Hw Hnd Hwf Hne Hl Hs.
  unfold swt3, GetArrayFromImage. rewrite decide_False by (by rewrite Hnd; intros []).
  assert (Hwav : match wavelet with
                 | WaveletObject w0 => Return w0
                 | WaveletName name => pywt_Wavelet name
                 end = Return w).
  { by destruct Hw as [->|(name & -> & ->)]. }
  rewrite Hwav. cbn [mbind result_bind].
  replace (Z.to_nat start_level) with 0 by lia.
  replace (Z.to_nat level) with 0 by lia.
  cbn [repeat_ mbind result_bind]. fold (pad_even (shape (voxels inputImage))).
  rewrite resize_pad_crop by (done || apply size_of_pad_even).
  unfold CopyInformation, GetImageFromArray. cbn [voxels].
  by rewrite decide_True.
Qed.

(** X9.  The error of [pywt.Wavelet] for a name it does not know comes
    out of [swt3] unchanged, whatever the levels. *)
Theorem swt3_unknown_wavelet (inputImage : Image) (name : string) (e : exn)
    (level start_level : Z) :
  ndim (voxels inputImage) = 3 →
  pywt_Wavelet name = Raise e →
  swt3 inputImage (WaveletName name) level start_level = Raise e.
Proof.
  intros Hnd He. unfold swt3, GetArrayFromImage.
  rewrite decide_False by (by rewrite Hnd; intros []). by rewrite He.
Qed.

End WaveletLevels.

(** ** The three passes *)

Section WaveletPasses.
Context `{pywt : PyWavelets}.
Import Arrays Indexing.
Local Open Scope nat_scope.

Lemma bind_singleton_fmap {A B} (g : A → B) (l : list A) :
  (x ← l; [g x]) = g <$> l.
Proof. induction l as [|x l IH]; csimpl; [done|]. by rewrite IH. Qed.

(** Lookup in a concatenation of blocks of one length. *)
Lemma lookup_bind_const {A B} (f : A → list B) (l : list A) (n i j : nat) (x : A) :
  (∀ y, y ∈ l → length (f y) = n) → l !! i = Some x → j < n →
  (l ≫= f) !! (i * n + j) = f x !! j.
Proof.
  revert i. induction l as [|y l IH]; intros i Hlen Hi Hj; [done|]. csimpl.
  destruct i as [|i]; simpl in Hi.
  - injection Hi as ->. rewrite lookup_app_l; [done|].
    rewrite Hlen; [lia|left].
  - rewrite lookup_app_r; rewrite (Hlen y) by left; [|lia].
    replace (S i * n + j - n) with (i * n + j) by lia.
    apply IH; [|done..]. intros z Hz. apply Hlen. by right.
Qed.

Lemma lookup_concat_const {A} (rows : list (list A)) (n i j : nat) (r : list A) :
  Forall (λ r, length r = n) rows → rows !! i = Some r → j < n →
  concat rows !! (i * n + j) = r !! j.
Proof.
  intros Hall. revert i. induction Hall as [|y rows Hy _ IH]; intros i Hi Hj;
    [done|]. simpl.
  destruct i as [|i]; simpl in Hi.
  - injection Hi as ->. rewrite lookup_app_l; [done|lia].
  - rewrite lookup_app_r by lia.
    replace (S i * n + j - length y) with (i * n + j) by lia. by apply IH.
Qed.

(** The coefficient lines come in the order of the input lines. *)
Lemma transform_lines_lookup (w : Wavelet) (lines H L : list (list Q)) :
  transform_lines w lines = Return (H, L) →
  ∀ n ln, lines !! n = Some ln →
    ∃ cA cD, pywt_swt w ln = Return (cA, cD)
             ∧ H !! n = Some cD ∧ L !! n = Some cA.
Proof.
  unfold transform_lines. revert H L.
  induction lines as [|l0 lines IH]; intros H L Heq n ln Hn; [done|].
  cbn [mapM mbind result_bind] in Heq.
  destruct (pywt_swt w l0) as [[cA0 cD0]|e] eqn:Hsw; cbn [mbind result_bind] in Heq; [|done].
  destruct (mapM (pywt_swt w) lines) as [cs|e] eqn:Hm; cbn in Heq; [|done].
  injection Heq as <- <-.
  destruct n as [|n]; simpl in Hn.
  - injection Hn as <-. by exists cA0, cD0.
  - destruct (IH (snd <$> cs) (fst <$> cs)) with (n := n) (ln := ln)
      as (cA & cD & ? & ? & ?); [reflexivity|done|].
    by exists cA, cD.
Qed.

Lemma chain_from_iterable_lookup (a : ndarray) (s0 s1 s2 i j : nat) :
  shape a = [s0; s1; s2] → i < s0 → j < s1 →
  chain_from_iterable a !! (i * s1 + j) = Some (line a i j).
Proof.
  intros Hsh Hi Hj. unfold chain_from_iterable, line. rewrite Hsh.
  rewrite list_lookup_fmap, lookup_seq_lt by nia. done.
Qed.

Lemma at_Some (l : list Q) (i : nat) (x : Q) : l !! i = Some x → at_ l i = x.
Proof. unfold at_. by intros ->. Qed.

Lemma at_take_drop (l : list Q) (n m i : nat) :
  i < n → at_ (take n (drop m l)) i = at_ l (m + i).
Proof. intros Hi. unfold at_. by rewrite lookup_take_lt, lookup_drop. Qed.


(** Lookup in the flat data written by nested comprehensions. *)
Lemma lookup_bind2 {A B} (g : nat → A → B) (n m : nat) (l : list A)
    (k j : nat) (x : A) :
  length l = m → k < n → l !! j = Some x →
  (k' ← seq 0 n; y ← l; [g k' y]) !! (k * m + j) = Some (g k x).
Proof.
  intros <- Hk Hj.
  rewrite (lookup_bind_const _ _ (length l) k j k).
  - by rewrite bind_singleton_fmap, list_lookup_fmap, Hj.
  - intros y _. by rewrite bind_singleton_fmap, length_fmap.
  - by rewrite lookup_seq_lt.
  - by eapply lookup_lt_Some.
Qed.

Lemma lookup_bind3 {B} (g : nat → nat → nat → B) (n1 n2 n3 j k i : nat) :
  j < n1 → k < n2 → i < n3 →
  (j' ← seq 0 n1; k' ← seq 0 n2; i' ← seq 0 n3; [g j' k' i'])
    !! ((j * n2 + k) * n3 + i) = Some (g j k i).
Proof.
  intros Hj Hk Hi.
  replace ((j * n2 + k) * n3 + i) with (j * (n2 * n3) + (k * n3 + i)) by lia.
  rewrite (lookup_bind_const _ _ (n2 * n3) j (k * n3 + i) j).
  - rewrite (lookup_bind2 (g j) n2 n3 (seq 0 n3) k i i);
      [done|by rewrite length_seq|done|by rewrite lookup_seq_lt].
  - intros y _. rewrite (length_bind_const _ _ (n3 * 1)); [rewrite length_seq; lia|].
    intros z _. by rewrite (length_bind_const _ _ 1), length_seq.
  - by rewrite lookup_seq_lt.
  - nia.
Qed.

(** The transformed lines of a 3-D array, with what is known of them. *)
Lemma lines_transformed (a : ndarray) (w : Wavelet) (s0 s1 s2 : nat) :
  swt_keeps_length → shape a = [s0; s1; s2] → well_formed a →
  s2 ≠ 0 → s2 mod 2 = 0 →
  ∃ Hr Lr, transform_lines w (chain_from_iterable a) = Return (Hr, Lr)
    ∧ length Hr = s0 * s1 ∧ length Lr = s0 * s1
    ∧ Forall (λ r, length r = s2) Hr ∧ Forall (λ r, length r = s2) Lr
    ∧ ∀ i j, i < s0 → j < s1 →
        ∃ cA cD, pywt_swt w (line a i j) = Return (cA, cD)
          ∧ Hr !! (i * s1 + j) = Some cD ∧ Lr !! (i * s1 + j) = Some cA.
Proof.
  intros Hswt Hsh Hwf H2 He.
  destruct (chain_from_iterable_lines a s0 s1 s2 Hsh Hwf) as [Hlen Hall].
  destruct (transform_lines_ok w _ s2 Hswt H2 He Hall)
    as (Hr & Lr & Heq & HlH & HlL & HH & HL).
  exists Hr, Lr. split_and!; try done; try lia.
  intros i j Hi Hj.
  apply (transform_lines_lookup w _ Hr Lr Heq).
  by apply (chain_from_iterable_lookup a s0 s1 s2).
Qed.

(** X10.  [_decompose_i] transforms the lines along the last axis:
    [H[i, j, :]] and [L[i, j, :]] are the detail and the approximation
    coefficients of [data[i, j, :]]. *)
Theorem _decompose_i_last_axis (a : ndarray) (w : Wavelet) (s0 s1 s2 : nat) :
  swt_keeps_length → shape a = [s0; s1; s2] → well_formed a →
  s0 ≠ 0 → s1 ≠ 0 → s2 ≠ 0 → s2 mod 2 = 0 →
  ∃ H L, _decompose_i a w = Return (H, L)
    ∧ shape H = [s0; s1; s2] ∧ shape L = [s0; s1; s2]
    ∧ ∀ i j, i < s0 → j < s1 →
        ∃ cA cD, pywt_swt w (line a i j) = Return (cA, cD)
          ∧ ∀ k, k < s2 →
              element H i j k = at_ cD k ∧ element L i j k = at_ cA k.
Proof.
  intros Hswt Hsh Hwf H0 H1 H2 He.
  destruct (lines_transformed a w s0 s1 s2 Hswt Hsh Hwf H2 He)
    as (Hr & Lr & Heq & HlH & HlL & HH & HL & Hlk).
  unfold _decompose_i, transpose_012. rewrite Hsh. cbn [mbind result_bind].
  rewrite Heq. cbn [mbind result_bind].
  assert (Hflat : ∀ rows, length rows = s0 * s1 →
            Forall (λ r, length r = s2) rows →
            (flat ← hstack rows; reshape (coeff_dtype (dtype a)) flat [s0; s1; s2])
            = Return (mk_ndarray (coeff_dtype (dtype a)) [s0; s1; s2] (concat rows))).
  { intros rows Hl Hr'. unfold hstack, reshape.
    destruct rows as [|r rows]; [simpl in Hl; nia|].
    cbn [mbind result_bind]. rewrite decide_True; [done|].
    rewrite (length_concat_const _ s2 Hr'), Hl. simpl. lia. }
  rewrite (Hflat Hr HlH HH), (Hflat Lr HlL HL). cbn [mbind result_bind].
  eexists _, _. split; [reflexivity|]. split; [done|]. split; [done|].
  intros i j Hi Hj. destruct (Hlk i j Hi Hj) as (cA & cD & Hsw & HcD & HcA).
  exists cA, cD. split; [done|]. intros k Hk.
  unfold element, at_. cbn [shape data].
  by rewrite (lookup_concat_const Hr s2 _ k cD), (lookup_concat_const Lr s2 _ k cA).
Qed.


Lemma asarray_explicit (dt : Z) (slices : list ndarray) (sh : list nat) :
  slices ≠ [] → Forall (λ s, shape s = sh) slices →
  asarray dt slices
  = Return (mk_ndarray dt (length slices :: sh) (slices ≫= data)).
Proof.
  intros Hne Hall. unfold asarray. destruct slices as [|s slices]; [done|].
  pose proof (Forall_inv Hall) as Hs.
  assert (forallb (λ s', bool_decide (shape s' = shape s)) (s :: slices) = true) as ->.
  { apply forallb_forall. intros s' Hin%list_elem_of_In.
    apply bool_decide_eq_true. rewrite Hs.
    by eapply (proj1 (Forall_forall _ _)) in Hall. }
  by rewrite Hs.
Qed.

(** X11.  [_decompose_j] transforms the same lines, those along the last
    axis, and returns them with the last two axes exchanged: the result
    has shape [(s0, s2, s1)] and [H[i, k, j]] is coefficient [k] of
    [data[i, j, :]]. *)
Theorem _decompose_j_last_axis_swapped (a : ndarray) (w : Wavelet)
    (s0 s1 s2 : nat) :
  swt_keeps_length → shape a = [s0; s1; s2] → well_formed a →
  s0 ≠ 0 → s1 ≠ 0 → s2 ≠ 0 → s2 mod 2 = 0 →
  ∃ H L, _decompose_j a w = Return (H, L)
    ∧ shape H = [s0; s2; s1] ∧ shape L = [s0; s2; s1]
    ∧ ∀ i j, i < s0 → j < s1 →
        ∃ cA cD, pywt_swt w (line a i j) = Return (cA, cD)
          ∧ ∀ k, k < s2 →
              element H i k j = at_ cD k ∧ element L i k j = at_ cA k.
Proof.
  intros Hswt Hsh Hwf H0 H1 H2 He.
  destruct (lines_transformed a w s0 s1 s2 Hswt Hsh Hwf H2 He)
    as (Hr & Lr & Heq & HlH & HlL & HH & HL & Hlk).
  unfold _decompose_j, transpose_012. rewrite Hsh.
  cbn [mbind result_bind lookup list_lookup default from_option]. unfold id.
  rewrite Heq. cbn [mbind result_bind].
  set (dt := coeff_dtype (dtype a)).
  assert (Hstack : ∀ rows, length rows = s0 * s1 →
            Forall (λ r, length r = s2) rows →
            ∃ b, (v ← vstack dt rows; slices ← split v s0;
                  asarray dt (T <$> slices)) = Return b
              ∧ shape b = [s0; s2; s1]
              ∧ ∀ i j k, i < s0 → j < s1 → k < s2 →
                  element b i k j = at_ (concat rows) ((i * s1 + j) * s2 + k)).
  { intros rows Hl Hr'. unfold vstack.
    destruct rows as [|r rows'] eqn:Hrows; [simpl in Hl; nia|]. rewrite <- Hrows in *.
    rewrite (same_length_true _ s2 Hr').
    assert (length r = s2) as ->
      by (rewrite Hrows in Hr'; by apply Forall_inv in Hr').
    cbn [mbind result_bind]. unfold split. cbn [shape dtype data].
    rewrite Hl. rewrite decide_True
      by (split; [done|]; rewrite Nat.mul_comm; apply Nat.Div0.mod_mul).
    cbn [mbind result_bind].
    rewrite (Nat.mul_comm s0 s1), Nat.div_mul by done.
    rewrite <- list_fmap_compose.
    set (blk := T ∘ _).
    assert (Hblk : ∀ b, blk b = mk_ndarray dt [s2; s1]
              (k ← seq 0 s2; j ← seq 0 s1;
               [at_ (take (s1 * (s2 * 1)) (drop (b * (s1 * (s2 * 1))) (concat rows)))
                    (j * s2 + k)])).
    { intros b. reflexivity. }
    rewrite (asarray_explicit dt _ [s2; s1]).
    - eexists. split; [reflexivity|]. split.
      { cbn [shape]. by rewrite length_fmap, length_seq. }
      intros i j k Hi Hj Hk. unfold element, at_ at 1. cbn [shape data].
      replace ((i * s2 + k) * s1 + j) with (i * (s2 * s1) + (k * s1 + j)) by lia.
      rewrite (lookup_bind_const data _ (s2 * s1) i (k * s1 + j) (blk i)).
      + rewrite Hblk. cbn [data].
        rewrite (lookup_bind2 _ s2 s1 (seq 0 s1) k j j);
          [|by rewrite length_seq|done|by rewrite lookup_seq_lt].
        cbn [default from_option]. unfold id.
        rewrite at_take_drop by nia. f_equal. lia.
      + intros y (b & -> & _)%list_elem_of_fmap. rewrite Hblk. cbn [data].
        rewrite (length_bind_const _ _ (s1 * 1)); [rewrite length_seq; lia|].
        intros z _. by rewrite (length_bind_const _ _ 1), length_seq.
      + by rewrite list_lookup_fmap, lookup_seq_lt.
      + nia.
    - destruct s0; [done|]. by cbn.
    - apply Forall_fmap, Forall_forall. intros b _.
      change (shape (blk b) = [s2; s1]). by rewrite Hblk. }
  destruct (Hstack Hr HlH HH) as (bH & -> & HsH & HeH).
  destruct (Hstack Lr HlL HL) as (bL & -> & HsL & HeL).
  cbn [mbind result_bind]. exists bH, bL. split; [done|]. split; [done|].
  split; [done|].
  intros i j Hi Hj. destruct (Hlk i j Hi Hj) as (cA & cD & Hsw & HcD & HcA).
  exists cA, cD. split; [done|]. intros k Hk.
  rewrite HeH, HeL by done. unfold at_.
  by rewrite (lookup_concat_const Hr s2 _ k cD), (lookup_concat_const Lr s2 _ k cA).
Qed.


(** After [numpy.transpose(a, (1, 2, 0))] the lines are the columns of
    [a] along its first axis. *)
Lemma transpose_120_lines (a : ndarray) (s0 s1 s2 : nat) :
  shape a = [s0; s1; s2] →
  ∃ t, transpose_120 a = Return t ∧ shape t = [s1; s2; s0] ∧ well_formed t
    ∧ ∀ j k, j < s1 → k < s2 → line t j k = column a j k.
Proof.
  intros Hsh. destruct (transpose_120_ok a s0 s1 s2 Hsh) as (t & Ht & Hst & Hwt).
  exists t. split_and!; try done.
  intros j k Hj Hk. unfold line, column. rewrite Hst, Hsh.
  unfold transpose_120 in Ht. rewrite Hsh in Ht. injection Ht as <-. cbn [data].
  apply list_eq. intros i. destruct (decide (i < s0)) as [Hi|Hi].
  - rewrite lookup_take_lt, lookup_drop, lookup_bind3 by done.
    rewrite list_lookup_fmap, lookup_seq_lt by done.
    unfold element. by rewrite Hsh.
  - rewrite lookup_take_ge by lia. symmetry. apply lookup_ge_None.
    rewrite length_fmap, length_seq. lia.
Qed.

(** X12.  [_decompose_k] transforms the columns along the first axis:
    [H[:, j, k]] and [L[:, j, k]] are the detail and the approximation
    coefficients of [data[:, j, k]]. *)
Theorem _decompose_k_first_axis (a : ndarray) (w : Wavelet) (s0 s1 s2 : nat) :
  swt_keeps_length → shape a = [s0; s1; s2] →
  s0 ≠ 0 → s1 ≠ 0 → s2 ≠ 0 → s0 mod 2 = 0 →
  ∃ H L, _decompose_k a w = Return (H, L)
    ∧ shape H = [s0; s1; s2] ∧ shape L = [s0; s1; s2]
    ∧ ∀ j k, j < s1 → k < s2 →
        ∃ cA cD, pywt_swt w (column a j k) = Return (cA, cD)
          ∧ ∀ i, i < s0 →
              element H i j k = at_ cD i ∧ element L i j k = at_ cA i.
Proof.
  intros Hswt Hsh H0 H1 H2 He.
  destruct (transpose_120_lines a s0 s1 s2 Hsh) as (t & Ht & Hst & Hwt & Hcol).
  destruct (lines_transformed t w s1 s2 s0 Hswt Hst Hwt H0 He)
    as (Hr & Lr & Heq & HlH & HlL & HH & HL & Hlk).
  unfold _decompose_k. rewrite Ht. cbn [mbind result_bind].
  rewrite Heq. cbn [mbind result_bind]. rewrite Hsh.
  set (dt := coeff_dtype (dtype a)).
  assert (Hstack : ∀ rows, length rows = s1 * s2 →
            Forall (λ r, length r = s0) rows →
            ∃ b, (d ← dstack dt rows; reshape dt (data d) [s0; s1; s2]) = Return b
              ∧ shape b = [s0; s1; s2]
              ∧ ∀ i j k row, i < s0 → j < s1 → k < s2 →
                  rows !! (j * s2 + k) = Some row →
                  element b i j k = at_ row i).
  { intros rows Hl Hr'. unfold dstack.
    destruct rows as [|r rows'] eqn:Hrows; [simpl in Hl; nia|]. rewrite <- Hrows in *.
    rewrite (same_length_true _ s0 Hr').
    assert (length r = s0) as ->
      by (rewrite Hrows in Hr'; by apply Forall_inv in Hr').
    cbn [mbind result_bind data]. unfold reshape.
    rewrite decide_True.
    - eexists. split; [reflexivity|]. split; [done|].
      intros i j k row Hi Hj Hk Hrow. unfold element. cbn [shape data].
      replace ((i * s1 + j) * s2 + k) with (i * (s1 * s2) + (j * s2 + k)) by lia.
      apply at_Some.
      by apply (lookup_bind2 (λ i' row', at_ row' i') s0 (s1 * s2) rows i
                  (j * s2 + k) row).
    - rewrite (length_bind_const _ _ (length rows * 1)).
      + rewrite length_seq, Hl. simpl. lia.
      + intros i _. by apply length_bind_const. }
  destruct (Hstack Hr HlH HH) as (bH & -> & HsH & HeH).
  destruct (Hstack Lr HlL HL) as (bL & -> & HsL & HeL).
  cbn [mbind result_bind]. exists bH, bL. split; [done|]. split; [done|].
  split; [done|].
  intros j k Hj Hk. destruct (Hlk j k Hj Hk) as (cA & cD & Hsw & HcD & HcA).
  rewrite Hcol in Hsw by done.
  exists cA, cD. split; [done|]. intros i Hi.
  by rewrite (HeH i j k cD), (HeL i j k cA).
Qed.

End WaveletPasses.

(** ** getHistogram and binImage *)

Section HistogramFacts.
Import Numpy Arrays Histogram.
Local Open Scope Q_scope.

Lemma Qlt_bool_iff (x y : Q) : Qlt_bool x y = true ↔ x < y.
Proof.
  unfold Qlt_bool. rewrite negb_true_iff. split.
  - intros Hf. apply Qnot_le_lt. intros Hle. apply Qle_bool_iff in Hle. congruence.
  - intros Hlt. apply not_true_is_false. intros Hle%Qle_bool_iff.
    by apply Qlt_not_le in Hlt.
Qed.


Lemma Qle_bool_false (x y : Q) : Qle_bool x y = false ↔ y < x.
Proof.
  rewrite <- Qlt_bool_iff. unfold Qlt_bool. by rewrite negb_true_iff.
Qed.


























Lemma increment_last_snoc (l : list Q) (x : Q) :
  increment_last (l ++ [x]) = Ok (l ++ [x + 1]).
Proof.
  unfold increment_last. destruct (l ++ [x]) eqn:Hl.
  - by destruct l.
  - rewrite <- Hl. f_equal. rewrite length_app. cbn [length].
    replace (length l + 1 - 1)%nat with (length l + 0)%nat by lia.
    by rewrite alter_app_r.
Qed.









(** X18.  The histogram that [binImage] returns is the one of
    [getHistogram] with its last edge moved up by 1. *)
Theorem binImage_shifts_last_edge (binwidth : Q) (parameterMatrix : ndarray)
    (coords : list (list nat)) (matrix' : ndarray) (counts : list nat)
    (edges : list Q) :
  binImage binwidth parameterMatrix coords = Ok (matrix', (counts, edges)) →
  ∃ ps l x,
    positions (shape parameterMatrix) coords = Ok ps
    ∧ getHistogram binwidth (at_ (data parameterMatrix) <$> ps)
      = Ok (counts, l ++ [x])
    ∧ edges = l ++ [x + 1].
Proof.
  unfold binImage. destruct (positions _ _) as [ps|] eqn:Hps; [|done].
  destruct (getHistogram _ _) as [[counts0 edges0]|] eqn:Hh; [|done].
  assert (edges0 = [] ∨ ∃ l x, edges0 = l ++ [x]) as [->|(l & x & ->)].
  { destruct edges0 as [|x l _] using rev_ind; [by left|right]. by exists l, x. }
  { done. }
  rewrite increment_last_snoc.
  destruct (digitize _ _); [|done]. intros [= <- <- <-].
  by exists ps, l, x.
Qed.

End HistogramFacts.

(** ** applyLoG *)

Section LoGFacts.
Context `{log : LaplacianFilter}.
Import Numpy.
Local Open Scope Q_scope.

(** The test of [applyLoG] on the sizes, axis by axis. *)
Lemma applyLoG_size_test (size : list Z) (spacing : list Q) (sigma : Q) :
  forallb id (zip_with (λ s n, Qle_bool n s) (to_float size)
                (add_s (ceil ((λ s, sigma / s) <$> spacing)) 1)) = true
  ↔ Forall2 (λ n sp, (Qceiling (sigma / sp) + 1 ≤ n)%Z)
      (take (length spacing) size) (take (length size) spacing).
Proof.
  unfold to_float, add_s, ceil. revert spacing.
  induction size as [|n size IH]; intros [|sp spacing];
    try (split; [constructor|done]).
  rewrite !fmap_cons. cbn [zip_with forallb length take].
  rewrite andb_true_iff, IH, Forall2_cons. unfold id at 1.
  assert (Qle_bool (inject_Z (Qceiling (sigma / sp)) + 1) (inject_Z n) = true
          ↔ (Qceiling (sigma / sp) + 1 ≤ n)%Z) as ->; [|done].
  rewrite Qle_bool_iff. change 1 with (inject_Z 1).
  by rewrite <- inject_Z_plus, <- Zle_Qle.
Qed.

(** X19.  If [applyLoG] filters an image for some sigma, it filters it
    for every smaller positive sigma. *)
Theorem applyLoG_accepts_smaller_sigma (inputImage : Image) (sigma sigma' : Q) :
  Forall (λ sp, 0 < sp) (Spacing inputImage) →
  0 < sigma' → sigma' <= sigma →
  is_Some (applyLoG inputImage sigma) →
  applyLoG inputImage sigma'
  = Some (LaplacianRecursiveGaussian_Execute sigma' inputImage).
Proof.
  intros Hsp Hpos Hle. unfold applyLoG.
  assert (Qlt_bool 0 sigma' = true) as ->.
  { unfold Qlt_bool. apply negb_true_iff, not_true_is_false.
    intros H%Qle_bool_iff. lra. }
  destruct (Qlt_bool 0 sigma); [|by intros [? ?]].
  destruct (forallb id _) eqn:Hacc; [|by intros [? ?]]. intros _.
  apply applyLoG_size_test in Hacc.
  assert (forallb id (zip_with (λ s n, Qle_bool n s) (to_float (GetSize inputImage))
            (add_s (ceil ((λ s, sigma' / s) <$> Spacing inputImage)) 1)) = true) as ->;
    [|done].
  apply applyLoG_size_test.
  assert (Hsp' : Forall (λ sp, 0 < sp)
                   (take (length (GetSize inputImage)) (Spacing inputImage))).
  { by apply Forall_take. }
  revert Hsp'. induction Hacc as [|n sp ns sps Hn _ IH]; intros Hsp'; constructor.
  - apply Forall_cons in Hsp' as [Hsp0 _].
    etrans; [|exact Hn]. apply Z.add_le_mono_r, Qceiling_resp_le.
    apply Qle_shift_div_l; [done|].
    assert (Hd : sigma' / sp * sp == sigma') by (field; lra).
    rewrite Hd. done.
  - apply IH. by apply Forall_cons in Hsp' as [_ ?].
Qed.

Lemma applyLoG_rejects_single_slice (inputImage : Image) (sigma : Q)
    (i : nat) (n : Z) (sp : Q) :
  GetSize inputImage !! i = Some n → Spacing inputImage !! i = Some sp →
  0 < sp → (n ≤ 1)%Z →
  applyLoG inputImage sigma = None.
Proof.
  intros Hn Hsp Hpos Hone. unfold applyLoG.
  destruct (Qlt_bool 0 sigma) eqn:Hs; [|done].
  assert (Hsig : 0 < sigma).
  { unfold Qlt_bool in Hs. apply negb_true_iff in Hs.
    apply Qnot_le_lt. intros Hle%Qle_bool_iff. congruence. }
  destruct (forallb id _) eqn:Hacc; [|done]. exfalso.
  apply applyLoG_size_test in Hacc.
  assert (Hi1 : take (length (Spacing inputImage)) (GetSize inputImage) !! i = Some n).
  { rewrite lookup_take_lt; [done|]. by eapply lookup_lt_Some. }
  assert (Hi2 : take (length (GetSize inputImage)) (Spacing inputImage) !! i = Some sp).
  { rewrite lookup_take_lt; [done|]. by eapply lookup_lt_Some. }
  pose proof (Forall2_lookup_lr _ _ _ _ _ _ Hacc Hi1 Hi2) as Hni. cbn in Hni.
  assert (0 < sigma / sp) by (apply Qlt_shift_div_l; lra).
  pose proof (Qle_ceiling (sigma / sp)) as Hc.
  assert (0 < Qceiling (sigma / sp))%Z; [|lia].
  rewrite Zlt_Qlt. change (inject_Z 0) with 0. lra.
Qed.

Lemma applyLoG_rejects_nonpositive_sigma (inputImage : Image) (sigma : Q) :
  sigma <= 0 → applyLoG inputImage sigma = None.
Proof.
  intros Hle. unfold applyLoG.
  assert (Qlt_bool 0 sigma = false) as -> ; [|done].
  unfold Qlt_bool. apply negb_false_iff. by apply Qle_bool_iff.
Qed.

(** X20.  [applyLoG] returns [None], never the input image, when sigma is
    not positive, and also when some axis of the image has a single
    voxel (no positive sigma passes the size test there). *)
Theorem applyLoG_rejects (inputImage : Image) (sigma : Q) :
  (sigma <= 0
   ∨ ∃ (i : nat) (n : Z) (sp : Q),
       GetSize inputImage !! i = Some n ∧ Spacing inputImage !! i = Some sp
       ∧ 0 < sp ∧ (n ≤ 1)%Z) →
  applyLoG inputImage sigma = None.
Proof.
  intros [Hle|(i & n & sp & Hn & Hsp & Hpos & Hone)].
  - by apply applyLoG_rejects_nonpositive_sigma.
  - by apply (applyLoG_rejects_single_slice inputImage sigma i n sp).
Qed.

End LoGFacts.

(** ** The properties on concrete inputs *)

Section MoreExamples.

Import Reference Arrays Indexing Histogram Samples.

#[local] Existing Instance identity_filter.

Lemma generateAngles_characterised_witness :
  (1, -1, 0) ∈ Angles.generateAngles (5, 5, 5) 1.
Proof.
  apply (proj2 (generateAngles_characterised 5 5 5 1 (1, -1, 0) ltac:(lia))).
  repeat split; by vm_compute.
Defined.

Lemma generateAngles_half_space_witness :
  (-1, 1, 0) ∉ Angles.generateAngles (5, 5, 5) 1.
Proof.
  apply (generateAngles_half_space 5 5 5 1 (1, -1, 0)); [lia|].
  apply (bool_decide_unpack _). by vm_compute.
Defined.

Lemma generateAngles_one_of_each_pair_witness :
  (-1, 1, 0) ∈ Angles.generateAngles (5, 5, 5) 1
  ∨ (1, -1, 0) ∈ Angles.generateAngles (5, 5, 5) 1.
Proof.
  apply (generateAngles_one_of_each_pair 5 5 5 1 (-1, 1, 0));
    try lia; try done; by vm_compute.
Defined.

Lemma generateAngles_count_witness :
  Z.of_nat (length (Angles.generateAngles (4, 5, 6) 2)) = ((2 * 2 + 1) ^ 3 - 1) / 2.
Proof. apply (generateAngles_count 4 5 6 2); lia. Defined.

Lemma resampleImage_common_grid_witness :
  ∃ spacing size origin,
    resampleImage (Some mask444) (Some mask444) [2; 2; 2]%Q
                  (PyStr "sitkLinear") 1 5
    = Return (RetTuple2
        (ResampleImageFilter_Execute
           (mk_rif spacing (Direction mask444) size origin
                   (PixelID mask444) 1) mask444,
         ResampleImageFilter_Execute
           (mk_rif spacing (Direction mask444) size origin
                   (PixelID mask444) sitkNearestNeighbor) mask444)).
Proof.
  apply (resampleImage_common_grid mask444 mask444 [2; 2; 2]%Q
           (PyStr "sitkLinear") 1 5 1); by vm_compute.
Defined.

Lemma resampleImage_grid_covers_box_witness :
  ∃ e0 e1 e2 m0 m1 m2 c0 c1 c2,
    resampleImage (Some mask444) (Some mask444) [2; 2; 2]%Q (PyInt 2) 1 1
    = Return (RetTuple2
        (ResampleImageFilter_Execute
           (mk_rif [e0; e1; e2] (Direction mask444) [m0; m1; m2]
              (TransformContinuousIndexToPhysicalPoint mask444 [c0; c1; c2])
              (PixelID mask444) 2) mask444,
         ResampleImageFilter_Execute
           (mk_rif [e0; e1; e2] (Direction mask444) [m0; m1; m2]
              (TransformContinuousIndexToPhysicalPoint mask444 [c0; c1; c2])
              (PixelID mask444) sitkNearestNeighbor) mask444))
    ∧ Forall2 (λ '(c, e, o, m) '(l, z),
         (c - (1 # 2) * (e / o) <= inject_Z l - (1 # 2))%Q
         ∧ (inject_Z (l + z - 1) <= c + (inject_Z m - (1 # 2)) * (e / o))%Q)
        [(c0, e0, 1%Q, m0); (c1, e1, 1%Q, m1); (c2, e2, 1%Q, m2)]
        [(1, 2); (1, 2); (1, 2)].
Proof.
  apply (resampleImage_grid_covers_box mask444 mask444 [2; 2; 2]%Q (PyInt 2)
           1 1 2 4 4 4 1 1 1 2 2 2 1 1 1 2 2 2);
    try (by vm_compute); try lia; by repeat split.
Defined.

Lemma swt3_every_level_witness :
  ∃ approximation ret,
    swt3 (volume [3; 2; 2]%nat (seqZ 0 12)) (WaveletName "haar") 2 1
    = Return (approximation, ret)
    ∧ length ret = Z.to_nat 2
    ∧ on_grid_of approximation (volume [3; 2; 2]%nat (seqZ 0 12))
    ∧ Forall (detail_dict (volume [3; 2; 2]%nat (seqZ 0 12))) ret.
Proof.
  apply (swt3_every_level (volume [3; 2; 2]%nat (seqZ 0 12))
           (WaveletName "haar") (tt : @Wavelet wavelets) 2 1 3 2 2).
  - apply haar_keeps_length.
  - right. by exists "haar".
  - reflexivity.
  - lia.
  - lia.
  - lia.
Defined.

Lemma swt3_no_level_returns_input_witness :
  swt3 ramp242 (WaveletName "haar") 0 0
  = Return (mk_Image (dtype (voxels ramp242)) (Spacing ramp242)
              (Origin ramp242) (Direction ramp242) (voxels ramp242), []).
Proof.
  apply (swt3_no_level_returns_input ramp242 (WaveletName "haar")
           (tt : @Wavelet wavelets) 0 0).
  - right. by exists "haar".
  - reflexivity.
  - reflexivity.
  - by vm_compute.
  - lia.
  - lia.
Defined.

Lemma swt3_unknown_wavelet_witness :
  swt3 ramp242 (WaveletName "coif1") 1 0
  = Raise (ValueError "Unknown wavelet name").
Proof.
  apply (swt3_unknown_wavelet ramp242 "coif1"); reflexivity.
Defined.

Lemma _decompose_i_last_axis_witness :
  ∃ H L, _decompose_i (voxels ramp242) (tt : @Wavelet wavelets) = Return (H, L)
    ∧ shape H = [2; 4; 2]%nat ∧ shape L = [2; 4; 2]%nat
    ∧ ∀ i j, (i < 2)%nat → (j < 4)%nat →
        ∃ cA cD, pywt_swt (tt : @Wavelet wavelets) (line (voxels ramp242) i j)
                 = Return (cA, cD)
          ∧ ∀ k, (k < 2)%nat →
              element H i j k = at_ cD k ∧ element L i j k = at_ cA k.
Proof.
  apply (_decompose_i_last_axis (voxels ramp242) (tt : @Wavelet wavelets) 2 4 2);
    try done. apply haar_keeps_length.
Defined.

Lemma _decompose_j_last_axis_swapped_witness :
  ∃ H L, _decompose_j (voxels ramp242) (tt : @Wavelet wavelets) = Return (H, L)
    ∧ shape H = [2; 2; 4]%nat ∧ shape L = [2; 2; 4]%nat
    ∧ ∀ i j, (i < 2)%nat → (j < 4)%nat →
        ∃ cA cD, pywt_swt (tt : @Wavelet wavelets) (line (voxels ramp242) i j)
                 = Return (cA, cD)
          ∧ ∀ k, (k < 2)%nat →
              element H i k j = at_ cD k ∧ element L i k j = at_ cA k.
Proof.
  apply (_decompose_j_last_axis_swapped (voxels ramp242)
           (tt : @Wavelet wavelets) 2 4 2); try done.
  apply haar_keeps_length.
Defined.

Lemma _decompose_k_first_axis_witness :
  ∃ H L, _decompose_k (voxels ramp242) (tt : @Wavelet wavelets) = Return (H, L)
    ∧ shape H = [2; 4; 2]%nat ∧ shape L = [2; 4; 2]%nat
    ∧ ∀ j k, (j < 4)%nat → (k < 2)%nat →
        ∃ cA cD, pywt_swt (tt : @Wavelet wavelets) (column (voxels ramp242) j k)
                 = Return (cA, cD)
          ∧ ∀ i, (i < 2)%nat →
              element H i j k = at_ cD i ∧ element L i j k = at_ cA i.
Proof.
  apply (_decompose_k_first_axis (voxels ramp242) (tt : @Wavelet wavelets) 2 4 2);
    try done. apply haar_keeps_length.
Defined.






Lemma binImage_shifts_last_edge_witness :
  ∃ ps l x,
    positions [5]%nat grey_coords = Ok ps
    ∧ getHistogram 25 (at_ grey_values <$> ps)
      = Ok ([1; 1; 1; 1]%nat, l ++ [x])
    ∧ [0; 25; 50; 75; 101]%Q = l ++ [(x + 1)%Q].
Proof.
  apply (binImage_shifts_last_edge 25
           grey_line
           grey_coords
           (mk_ndarray 1 [5]%nat (inject_Z <$> [1; 2; 3; 75; 4]))).
  by vm_compute.
Defined.

Lemma applyLoG_accepts_smaller_sigma_witness :
  applyLoG mask444 1 = Some (LaplacianRecursiveGaussian_Execute 1 mask444).
Proof.
  apply (applyLoG_accepts_smaller_sigma mask444 2 1).
  - by repeat constructor.
  - done.
  - done.
  - eexists. by vm_compute.
Defined.

Lemma applyLoG_rejects_witness :
  applyLoG (volume [1; 4; 4]%nat (replicate 16 0)) (1 # 2) = None.
Proof.
  apply (applyLoG_rejects (volume [1; 4; 4]%nat (replicate 16 0)) (1 # 2)).
  right. exists 2%nat, 1, 1%Q. by repeat split.
Defined.

End MoreExamples.
